(** * AI Starter Quest: the dialogue engine and the Gemini hint client

    A shallow embedding of [main.py] (a Streamlit app): the per-session
    state [st.session_state], the cached and rate-limited client
    [gemini_reply], the three module handlers and the router [route],
    followed by the properties the specification states about them.

    Conventions of the embedding:
    - Python [int] is [Z]; [str] is [string] (the UTF-8 bytes of the text);
      [dict] is [gmap]; a session key that may be absent is an [option].
    - [time.time()] and the timestamps derived from it are exact rationals
      ([Q]); [int(x)] truncates toward zero.
    - The Gemini service is an oracle in the environment of a call: it maps
      a request to generated text or to a raised exception.  Every request
      sent to it is recorded, so that "the provider was (not) invoked" is a
      statement about that record.
    - Code that mutates the session is written in a small state monad.

    The layout of the page (columns, progress bar, rendering of the
    history) is not modelled. *)

From Stdlib Require Import QArith Qround.
From stdpp Require Import gmap strings list pretty.
Close Scope Q_scope.
Open Scope Z_scope.

(** ** Python string primitives *)

Definition nl : string := String (Ascii.ascii_of_nat 10) EmptyString.

(** [s * n]: a non-positive count gives the empty string. *)
Definition str_repeat (s : string) (n : Z) : string :=
  String.concat EmptyString (replicate (Z.to_nat n) s).

(** [needle in hay] on strings. *)
Fixpoint contains (needle hay : string) : bool :=
  String.prefix needle hay ||
  match hay with
  | EmptyString => false
  | String _ rest => contains needle rest
  end.

(** [s in xs] for a list, tuple or set literal of strings. *)
Definition str_in (s : string) (xs : list string) : bool :=
  existsb (String.eqb s) xs.

(** [a or b] on strings: the empty string is falsy. *)
Definition str_or (a b : string) : string :=
  if String.eqb a EmptyString then b else a.

(** [s.startswith(p)]. *)
Definition startswith (s p : string) : bool := String.prefix p s.

(** [str.strip], [str.lower] and [str.upper] are Unicode-aware built-ins of
    the interpreter, not code of the application.  The handlers are written
    against this interface; the invariants below hold for every
    implementation of it, and the concrete scenarios run on [ascii_ops],
    which is what the built-ins do on ASCII text. *)
Class StrOps := {
  py_strip : string → string;
  py_lower : string → string;
  py_upper : string → string
}.

Module AsciiStr.

Definition code (c : Ascii.ascii) : N := Ascii.N_of_ascii c.

(** The ASCII characters for which [str.isspace] holds. *)
Definition is_space (c : Ascii.ascii) : bool :=
  let n := code c in
  ((9 <=? n) && (n <=? 13) || (28 <=? n) && (n <=? 32))%N.

Definition lower_char (c : Ascii.ascii) : Ascii.ascii :=
  let n := code c in
  if ((65 <=? n) && (n <=? 90))%N then Ascii.ascii_of_N (n + 32) else c.

Definition upper_char (c : Ascii.ascii) : Ascii.ascii :=
  let n := code c in
  if ((97 <=? n) && (n <=? 122))%N then Ascii.ascii_of_N (n - 32) else c.

Fixpoint map_chars (f : Ascii.ascii → Ascii.ascii) (s : string) : string :=
  match s with
  | EmptyString => EmptyString
  | String c rest => String (f c) (map_chars f rest)
  end.

Fixpoint lstrip (s : string) : string :=
  match s with
  | EmptyString => EmptyString
  | String c rest => if is_space c then lstrip rest else s
  end.

Fixpoint rstrip (s : string) : string :=
  match s with
  | EmptyString => EmptyString
  | String c rest =>
      match rstrip rest with
      | EmptyString => if is_space c then EmptyString else String c EmptyString
      | kept => String c kept
      end
  end.

Definition strip (s : string) : string := rstrip (lstrip s).
Definition lower : string → string := map_chars lower_char.
Definition upper : string → string := map_chars upper_char.

End AsciiStr.

Definition ascii_ops : StrOps :=
  {| py_strip := AsciiStr.strip;
     py_lower := AsciiStr.lower;
     py_upper := AsciiStr.upper |}.

(** ** Configuration constants *)

Definition GEMINI_DEFAULT_MODEL : string := "gemini-1.5-flash".
Definition AI_COACH_ENABLED : bool := false.
Definition HINT_COOLDOWN_SEC : Z := 30.

Definition PREWRITTEN_HINTS : gmap Z string :=
  <[1 := "Think of apps that recommend or autocomplete."]>
  (<[2 := "Add audience, tone, and output format."]>
  (<[3 := "Pick one short task and try it."]> ∅)).

(** ** Session state *)

Record Message := { role : string; content : string }.

Record SessionState := {
  progress : Z;
  badges : list string;
  module : Z;
  messages : list Message;
  quiz_correct : Z;
  email_captured : bool;
  gemini_ready : bool;
  gemini_model : string;
  gemini_cache : option (gmap string string);
  next_hint_ok_ts : option Q
}.

(** [init_state] on a session with no key set. *)
Definition init_state : SessionState :=
  {| progress := 0; badges := []; module := 0; messages := [];
     quiz_correct := 0; email_captured := false; gemini_ready := false;
     gemini_model := GEMINI_DEFAULT_MODEL; gemini_cache := None;
     next_hint_ok_ts := None |}.

Definition set_progress (p : Z) (s : SessionState) : SessionState :=
  {| progress := p; badges := badges s; module := module s;
     messages := messages s; quiz_correct := quiz_correct s;
     email_captured := email_captured s; gemini_ready := gemini_ready s;
     gemini_model := gemini_model s; gemini_cache := gemini_cache s;
     next_hint_ok_ts := next_hint_ok_ts s |}.

Definition set_badges (b : list string) (s : SessionState) : SessionState :=
  {| progress := progress s; badges := b; module := module s;
     messages := messages s; quiz_correct := quiz_correct s;
     email_captured := email_captured s; gemini_ready := gemini_ready s;
     gemini_model := gemini_model s; gemini_cache := gemini_cache s;
     next_hint_ok_ts := next_hint_ok_ts s |}.

Definition set_module (m : Z) (s : SessionState) : SessionState :=
  {| progress := progress s; badges := badges s; module := m;
     messages := messages s; quiz_correct := quiz_correct s;
     email_captured := email_captured s; gemini_ready := gemini_ready s;
     gemini_model := gemini_model s; gemini_cache := gemini_cache s;
     next_hint_ok_ts := next_hint_ok_ts s |}.

Definition set_messages (ms : list Message) (s : SessionState) : SessionState :=
  {| progress := progress s; badges := badges s; module := module s;
     messages := ms; quiz_correct := quiz_correct s;
     email_captured := email_captured s; gemini_ready := gemini_ready s;
     gemini_model := gemini_model s; gemini_cache := gemini_cache s;
     next_hint_ok_ts := next_hint_ok_ts s |}.

Definition set_quiz_correct (q : Z) (s : SessionState) : SessionState :=
  {| progress := progress s; badges := badges s; module := module s;
     messages := messages s; quiz_correct := q;
     email_captured := email_captured s; gemini_ready := gemini_ready s;
     gemini_model := gemini_model s; gemini_cache := gemini_cache s;
     next_hint_ok_ts := next_hint_ok_ts s |}.

Definition set_gemini_ready (r : bool) (s : SessionState) : SessionState :=
  {| progress := progress s; badges := badges s; module := module s;
     messages := messages s; quiz_correct := quiz_correct s;
     email_captured := email_captured s; gemini_ready := r;
     gemini_model := gemini_model s; gemini_cache := gemini_cache s;
     next_hint_ok_ts := next_hint_ok_ts s |}.

Definition set_gemini_cache (c : option (gmap string string))
    (s : SessionState) : SessionState :=
  {| progress := progress s; badges := badges s; module := module s;
     messages := messages s; quiz_correct := quiz_correct s;
     email_captured := email_captured s; gemini_ready := gemini_ready s;
     gemini_model := gemini_model s; gemini_cache := c;
     next_hint_ok_ts := next_hint_ok_ts s |}.

Definition set_next_hint_ok_ts (t : option Q) (s : SessionState) : SessionState :=
  {| progress := progress s; badges := badges s; module := module s;
     messages := messages s; quiz_correct := quiz_correct s;
     email_captured := email_captured s; gemini_ready := gemini_ready s;
     gemini_model := gemini_model s; gemini_cache := gemini_cache s;
     next_hint_ok_ts := t |}.

(** The seed message, set whenever [messages] is empty when the page runs. *)
Definition WELCOME : Message :=
  {| role := "assistant";
     content := "Welcome! Type **begin** to start your AI journey. You'll complete 3 quick modules, earn badges, and preview your Report Card. Locked Level requires enrollment." |}.

Definition seed_messages (s : SessionState) : SessionState :=
  match messages s with
  | [] => set_messages [WELCOME] s
  | _ => s
  end.

(** The sidebar's "Reset demo": the listed keys are popped and the rerun's
    [init_state] restores their defaults; the Gemini flags are kept. *)
Definition reset_demo (s : SessionState) : SessionState :=
  {| progress := 0; badges := []; module := 0; messages := [];
     quiz_correct := 0; email_captured := false;
     gemini_ready := gemini_ready s; gemini_model := gemini_model s;
     gemini_cache := None; next_hint_ok_ts := None |}.

(** The entries of [gemini_cache]; an absent dictionary has none. *)
Definition cache_entries (s : SessionState) : gmap string string :=
  default ∅ (gemini_cache s).

(** [session_state.get("next_hint_ok_ts", 0)]. *)
Definition next_ok_of (s : SessionState) : Q :=
  default (inject_Z 0) (next_hint_ok_ts s).

(** ** The Gemini service and the environment of a call *)

(** What [model.generate_content] is given. *)
Record Request := {
  req_model : string;
  req_prompt : string;
  req_temperature : Q;
  req_max_output_tokens : Z
}.

(** What it gives back: a response whose [text] may be [None], or an
    exception, of which the code only reads [str(e)]. *)
Inductive Response :=
  | Generated (text : option string)
  | Raised (msg : string).

Record Env := {
  now : Q;                                  (* time.time() *)
  generate_content : Request → Response     (* the provider *)
}.

(** ** Session actions

    An action reads the environment, transforms the session and records
    the requests it sent to the provider. *)

Record Out (A : Type) := MkOut {
  value : A;
  state : SessionState;
  calls : list Request
}.
Arguments MkOut {A} _ _ _.
Arguments value {A} _.
Arguments state {A} _.
Arguments calls {A} _.

Definition Act (A : Type) : Type := Env → SessionState → Out A.

#[global] Instance act_ret : MRet Act :=
  λ A x _ s, MkOut x s [].

#[global] Instance act_bind : MBind Act :=
  λ A B f m e s,
    match m e s with
    | MkOut a s1 calls1 =>
        match f a e s1 with
        | MkOut b s2 calls2 => MkOut b s2 (calls1 ++ calls2)
        end
    end.

Definition get_session : Act SessionState := λ _ s, MkOut s s [].
Definition update (f : SessionState → SessionState) : Act unit :=
  λ _ s, MkOut tt (f s) [].
Definition time_time : Act Q := λ e s, MkOut (now e) s [].
Definition send (r : Request) : Act Response :=
  λ e s, MkOut (generate_content e r) s [r].

(** [int(x)] on a float. *)
Definition py_int (x : Q) : Z := Z.quot (Qnum x) (Zpos (Qden x)).

(** [a < b] on floats. *)
Definition Qltb (a b : Q) : bool := negb (Qle_bool b a).

(** [cache_key or prompt]: [None] and the empty string are both falsy. *)
Definition cache_key_of (prompt : string) (cache_key : option string) : string :=
  match cache_key with
  | Some k => str_or k prompt
  | None => prompt
  end.

Definition UNCONFIGURED : string := "(Hint unavailable: Gemini key not configured.)".
Definition NO_RESPONSE : string := "(No response from Gemini.)".
Definition RATE_LIMITED : string := "(Free-tier limit hit; showing a built-in hint.)".
Definition cooling_down (wait : Z) : string :=
  "(Cooling down " +:+ pretty wait +:+ "s to respect free-tier limits…)".
Definition gemini_error (msg : string) : string :=
  "(Gemini error: " +:+ msg +:+ ")".

Section Program.
Context `{ops : !StrOps}.

(** *** [gemini_reply] *)

Definition gemini_reply (prompt : string) (temp : Q)
    (cache_key : option string) : Act string :=
  s0 ← get_session;
  (if gemini_cache s0 is None then update (set_gemini_cache (Some ∅))
   else mret tt);;
  let key := cache_key_of prompt cache_key in
  s ← get_session;
  match cache_entries s !! key with
  | Some cached => mret cached
  | None =>
      if negb (gemini_ready s) then mret UNCONFIGURED
      else
        (* Cooldown *)
        t ← time_time;
        let next_ok := next_ok_of s in
        if Qltb t next_ok then
          let wait := py_int (next_ok - t)%Q in
          mret (cooling_down wait)
        else
          r ← send {| req_model := gemini_model s; req_prompt := prompt;
                      req_temperature := temp; req_max_output_tokens := 200 |};
          text ← match r with
                 | Generated text =>
                     let text := str_or (py_strip (str_or (default EmptyString text) EmptyString))
                                        NO_RESPONSE in
                     update (set_next_hint_ok_ts
                               (Some (t + inject_Z HINT_COOLDOWN_SEC)%Q));;
                     mret text
                 | Raised msg =>
                     if contains "429" msg || contains "rate" (py_lower msg) then
                       update (set_next_hint_ok_ts
                                 (Some (t + inject_Z HINT_COOLDOWN_SEC)%Q));;
                       mret RATE_LIMITED
                     else mret (gemini_error msg)
                 end;
          update (λ s', set_gemini_cache
                          (Some (<[key := text]> (cache_entries s'))) s');;
          mret text
  end.

(** *** Hints *)

Definition current_hint_prompt : Act string :=
  s ← get_session;
  let m := module s in
  if (m =? 0) || (m =? 1) then
    mret "Give one short hint (<=20 words) to help a beginner name an everyday example of AI they use."
  else if m =? 2 then
    mret "Give one short hint (<=20 words) on improving a prompt with audience, tone, and output format."
  else if m =? 3 then
    mret "Give one short hint (<=20 words) for choosing a quick hands-on AI exercise and completing it."
  else
    mret "Give a concise study hint (<=20 words) for learning basic AI concepts.".

Definition fallback_hint_for_current_module : Act string :=
  s ← get_session;
  let m := Z.max 1 (Z.min 3 (if module s =? 0 then 1 else module s)) in
  mret (default "Keep it short and specific." (PREWRITTEN_HINTS !! m)).

(** *** Helpers *)

Definition append_message (r c : string) : Act unit :=
  update (λ s, set_messages (messages s ++ [{| role := r; content := c |}]) s).

Definition badge_label (name emoji : string) : string :=
  emoji +:+ " " +:+ name.

Definition badge (name emoji : string) : Act unit :=
  let label := badge_label name emoji in
  s ← get_session;
  if negb (str_in label (badges s)) then
    update (set_badges (badges s ++ [label]))
  else mret tt.

Definition progress_to (p : Z) : Act unit :=
  update (λ s, set_progress (Z.max (progress s) p) s).

(** The "Get a hint" button, shown once Module 1 has begun. *)
Definition on_hint_click : Act unit :=
  s ← get_session;
  if 1 <=? module s then
    prompt ← current_hint_prompt;
    hint ← gemini_reply prompt (7 # 10)%Q (Some ("hint_m" +:+ pretty (module s)));
    hint ← (if startswith hint "(" then
              fb ← fallback_hint_for_current_module;
              mret (fb +:+ " " +:+ hint)
            else mret hint);
    append_message "assistant" ("**Hint:** " +:+ hint)
  else mret tt.

(** *** Module 1 *)

Definition GREETINGS : list string :=
  ["hi"; "hello"; "hey"; "yo"; "hola"; "help"; "start"].

Definition AI_EXAMPLES : list string :=
  ["netflix"; "spotify"; "recommend"; "maps"; "autocorrect";
   "autocomplete"; "youtube"].

Definition render_module_1 (user_text : string) : Act string :=
  let txt := py_lower (py_strip user_text) in
  (* Friendly greetings before start *)
  if str_in txt GREETINGS then
    mret "Hi! 👋 Type **begin** to start Module 1."
  else if String.eqb txt "begin" then
    progress_to 20;; badge "Concept Spark" "🏅";;
    mret ("### Module 1: What is AI?" +:+ nl +:+
          "AI helps computers perform tasks like pattern recognition, prediction, and content generation." +:+ nl +:+ nl +:+
          "**Checkpoint:** Name one everyday example of AI you've used or seen.")
  else if existsb (λ k, contains k txt) AI_EXAMPLES then
    progress_to 40;;
    s ← get_session;
    (if AI_COACH_ENABLED && gemini_ready s then
       coach ← gemini_reply
         "Explain in one friendly sentence why recommendations (e.g., Netflix) are an example of AI, for a non-technical learner."
         (4 # 10)%Q None;
       append_message "assistant" ("**Tutor:** " +:+ coach)
     else mret tt);;
    mret ("Nice! ✅ Recommendation engines (like Netflix/Spotify) are classic AI." +:+ nl +:+ nl +:+
          "**Mini-Quiz:** Which statement is MOST accurate?" +:+ nl +:+
          "A) AI is one algorithm." +:+ nl +:+
          "B) AI is a field with many methods, such as machine learning." +:+ nl +:+
          "C) AI is magic." +:+ nl +:+ nl +:+
          "_Reply with A, B, or C._")
  else if str_in (py_upper txt) ["A"; "B"; "C"] then
    msg ← (if String.eqb (py_upper txt) "B" then
             update (λ s, set_quiz_correct (quiz_correct s + 1) s);;
             s ← get_session;
             (if AI_COACH_ENABLED && gemini_ready s then
                fb ← gemini_reply
                  "In one sentence, praise a learner for selecting option B (AI is a field) and add a tiny follow-up tip."
                  (3 # 10)%Q None;
                append_message "assistant" ("**Tutor:** " +:+ fb)
              else mret tt);;
             mret "Correct! 🎉"
           else
             s ← get_session;
             (if AI_COACH_ENABLED && gemini_ready s then
                tip ← gemini_reply
                  "In one sentence, gently correct a learner who picked A or C and say why B is best, in plain English."
                  (3 # 10)%Q None;
                append_message "assistant" ("**Tutor:** " +:+ tip)
              else mret tt);;
             mret "Good try — the best answer is **B**.");
    progress_to 50;; update (set_module 2);;
    mret (msg +:+ nl +:+ nl +:+
          "**Progress saved.** Moving to **Module 2: Prompting Basics**." +:+ nl +:+
          "Type anything to continue.")
  else
    mret "Type **begin** to start the course, or say something like `Netflix recommendations` for the checkpoint.".

(** *** Module 2 *)

Definition render_module_2 (user_text : string) : Act string :=
  s ← get_session;
  if progress s <? 60 then
    progress_to 60;; badge "Prompt Explorer" "🔎";;
    mret ("### Module 2: Prompting Basics" +:+ nl +:+
          "Good prompts are **clear**, **contextual**, and **goal-oriented**." +:+ nl +:+ nl +:+
          "**Task:** Rewrite this weak prompt to be specific." +:+ nl +:+
          "_Weak_: `Write marketing ideas.`" +:+ nl +:+
          "Include audience, tone, and format.")
  else
    let attempt := py_strip user_text in
    if negb (String.eqb attempt EmptyString) && negb (str_in (py_upper attempt) ["A"; "B"]) then
      (if AI_COACH_ENABLED && gemini_ready s then
         let rubric :=
           "Rate this prompt for clarity, context, and format (1-5 each) and give one improvement tip in <=30 words:" +:+ nl +:+ nl +:+ attempt in
         review ← gemini_reply rubric (3 # 10)%Q None;
         append_message "assistant" ("**Tutor review:** " +:+ review)
       else mret tt);;
      progress_to 80;;
      mret ("**Quick Check:** Which prompt yields structured output?" +:+ nl +:+
            "A) `Write about AI.`" +:+ nl +:+
            "B) `Create a 5-step checklist for starting with AI at a small bakery, numbered list.`" +:+ nl +:+ nl +:+
            "_Reply with A or B._")
    else if str_in (py_upper attempt) ["A"; "B"] then
      (if String.eqb (py_upper attempt) "B" then
         update (λ s, set_quiz_correct (quiz_correct s + 1) s);;
         append_message "assistant" "**Tutor:** Great pick — numbered steps create structure."
       else
         append_message "assistant" "**Tutor:** Close. Asking for numbered steps (B) yields a tidy result.");;
      update (set_module 3);; progress_to 85;;
      mret "Moving to **Module 3: Hands-On**. Type anything to continue."
    else
      mret "Try adding audience, tone, and format (e.g., Instagram posts, friendly tone, bullet list).".

(** *** Module 3 *)

Definition EXERCISE_PROMPTS : gmap string string :=
  <["1" := "Generate 5 product ideas for eco-friendly kitchen tools."]>
  (<["2" := "Write a brief, empathetic apology for a delayed order; offer options to resolve."]>
  (<["3" := "List 3 spreadsheet automations (cleaning, categorizing, summarizing)."]> ∅)).

(** The closing message, with the two computed star ratings left open. *)
Definition report_card_with (concepts prompt_craft : string) : string :=
  "👏 Nicely done. You've completed the free track!" +:+ nl +:+ nl +:+
  "## 🔒 Locked Level: Applied AI Playbooks" +:+ nl +:+
  "- 12 advanced prompt frameworks" +:+ nl +:+
  "- Case studies + templates" +:+ nl +:+
  "- Certificate + full Report Card" +:+ nl +:+ nl +:+
  "👉 **Unlock via the AI Learning Academy:** [Enroll to unlock](https://example.com/enroll)" +:+ nl +:+ nl +:+
  "### Report Card (Preview)" +:+ nl +:+
  "- Concepts: " +:+ concepts +:+ nl +:+
  "- Prompt Craft: " +:+ prompt_craft +:+ nl +:+
  "- Applied Practice: ★★★☆☆" +:+ nl +:+
  "- Consistency: ★★☆☆☆" +:+ nl +:+ nl +:+
  "_Enter your email to receive your badges + preview report & a limited-time coupon._".

Definition report_card (quiz : Z) : string :=
  report_card_with
    (str_repeat "★" (Z.min 5 (3 + quiz)) +:+ str_repeat "☆" (Z.max 0 (5 - (3 + quiz))))
    (str_repeat "★" (Z.min 5 (2 + quiz)) +:+ str_repeat "☆" (Z.max 0 (5 - (2 + quiz)))).

Definition render_module_3 (user_text : string) : Act string :=
  s ← get_session;
  if progress s <? 90 then
    progress_to 90;; badge "AI Tinkerer" "🛠️";;
    mret ("### Module 3: Hands-On Practice" +:+ nl +:+
          "Pick a quick exercise (reply with 1, 2, or 3):" +:+ nl +:+
          "1) Content — 5 product ideas using AI" +:+ nl +:+
          "2) Customer Support — empathetic reply to a delay complaint" +:+ nl +:+
          "3) Data — 3 ways AI can save time in spreadsheets")
  else
    let choice := py_strip user_text in
    if str_in choice ["1"; "2"; "3"] then
      progress_to 95;;
      let task := EXERCISE_PROMPTS !!! choice in
      hint ← (if gemini_ready s && AI_COACH_ENABLED then
                hint_text ← gemini_reply
                  ("Give one 15-word tip to do this well: " +:+ task) (6 # 10)%Q None;
                mret (nl +:+ nl +:+ "**Tutor tip:** " +:+ hint_text)
              else mret EmptyString);
      mret ("Great choice! Try this: **" +:+ task +:+ "**" +:+ hint +:+ nl +:+ nl +:+
            "_When you're done, type `done`._")
    else if String.eqb (py_lower choice) "done" then
      progress_to 100;;
      s' ← get_session;
      mret (report_card (quiz_correct s'))
    else
      mret "Reply with `1`, `2`, or `3` to pick an exercise, then type `done` when finished.".

(** *** The router and the chat loop *)

Definition route (user_text : string) : Act string :=
  s ← get_session;
  let m := module s in
  if m =? 0 then
    update (set_module 1);;
    render_module_1 user_text
  else if m =? 1 then render_module_1 user_text
  else if m =? 2 then render_module_2 user_text
  else if m =? 3 then render_module_3 user_text
  else mret "Say **begin** to start.".

(** One submission of the chat box; an empty submission is ignored. *)
Definition on_chat_input (user_input : string) : Act unit :=
  if negb (String.eqb user_input EmptyString) then
    append_message "user" user_input;;
    reply ← route user_input;
    append_message "assistant" reply
  else mret tt.

(** A sequence of [route] calls, each in its own environment (its clock
    reading and what the provider would answer), from a given session. *)
Fixpoint run (s : SessionState) (inputs : list (Env * string)) : SessionState :=
  match inputs with
  | [] => s
  | (e, user_text) :: rest => run (state (route user_text e s)) rest
  end.

End Program.

(** ** Auxiliary definitions for the properties *)

(** Each quiz is scored at most once: the score never exceeds the number
    of modules already left behind. *)
Definition quiz_inv (s : SessionState) : Prop :=
  0 ≤ module s ≤ 3 ∧ 0 ≤ quiz_correct s ≤ Z.max 0 (module s - 1).

(** Whether [render_module_1] takes its quiz-answer branch on an input:
    the trimmed, lowercased text is no greeting, is not "begin", contains
    no AI-example keyword, and its upper-case form is "A", "B" or "C". *)
Definition answers_quiz_1 `{ops : !StrOps} (user_text : string) : bool :=
  let txt := py_lower (py_strip user_text) in
  negb (str_in txt GREETINGS) && negb (String.eqb txt "begin") &&
  negb (existsb (λ k, contains k txt) AI_EXAMPLES) &&
  str_in (py_upper txt) ["A"; "B"; "C"].

(** The request [gemini_reply] sends when it does reach the provider. *)
Definition request_of (s : SessionState) (prompt : string) (temp : Q) : Request :=
  {| req_model := gemini_model s; req_prompt := prompt;
     req_temperature := temp; req_max_output_tokens := 200 |}.

(** The text the [try] block of [gemini_reply] and its handler produce. *)
Definition text_of `{ops : !StrOps} (r : Response) : string :=
  match r with
  | Generated text => str_or (py_strip (str_or (default EmptyString text) EmptyString)) NO_RESPONSE
  | Raised msg =>
      if contains "429" msg || contains "rate" (py_lower msg) then RATE_LIMITED
      else gemini_error msg
  end.

(** Sample environments and sessions for the scenarios. *)
Definition offline_at (t : Z) : Env :=
  {| now := inject_Z t; generate_content := λ _, Raised "connection refused" |}.

Definition answering_at (t : Z) (text : string) : Env :=
  {| now := inject_Z t; generate_content := λ _, Generated (Some text) |}.

Definition configured_session : SessionState :=
  set_gemini_ready true init_state.

Definition cooling_session : SessionState :=
  set_next_hint_ok_ts (Some (inject_Z 30)) configured_session.

Definition module_1_session : SessionState := set_module 1 init_state.

(** ** The rest of the page: configuration, the e-mail form, one run *)

Definition set_email_captured (b : bool) (s : SessionState) : SessionState :=
  {| progress := progress s; badges := badges s; module := module s;
     messages := messages s; quiz_correct := quiz_correct s;
     email_captured := b; gemini_ready := gemini_ready s;
     gemini_model := gemini_model s; gemini_cache := gemini_cache s;
     next_hint_ok_ts := next_hint_ok_ts s |}.

(** What a run finds outside the session: the API key looked up in the
    secrets and the process environment, and the exception
    [genai.configure] raises on it, if any. *)
Record Config := {
  api_key : option string;
  configure_raises : option string
}.

(** [configure_gemini]: the session with [gemini_ready] set, and the text
    written to the session key [gemini_error], which nothing reads. *)
Definition configure_gemini (c : Config) (s : SessionState)
    : SessionState * option string :=
  if negb (String.eqb (default EmptyString (api_key c)) EmptyString) then
    match configure_raises c with
    | None => (set_gemini_ready true s, None)
    | Some msg => (set_gemini_ready false s, Some msg)
    end
  else (set_gemini_ready false s, None).

(** The "Send me my goodies" button of the e-mail form. *)
Definition send_goodies (email : string) (s : SessionState) : SessionState :=
  if negb (String.eqb email EmptyString) && contains "@" email then
    set_email_captured true s
  else s.

(** The widget the user acted on in a run of the page, if any. *)
Inductive Widget :=
  | PageLoad
  | ResetDemo
  | GetHint
  | ChatInput (user_input : string)
  | SendGoodies (email : string).

(** Whether [str(e)] reads as a rate-limit error. *)
Definition rate_limited `{ops : !StrOps} (r : Response) : bool :=
  match r with
  | Generated _ => false
  | Raised msg => contains "429" msg || contains "rate" (py_lower msg)
  end.

(** The three badges of the course, in the order of its modules. *)
Definition ALL_BADGES : list string :=
  [badge_label "Concept Spark" "🏅"; badge_label "Prompt Explorer" "🔎";
   badge_label "AI Tinkerer" "🛠️"].

Section Page.
Context `{ops : !StrOps}.

(** One run of the script, top to bottom: [init_state] (a no-op unless
    keys were popped), [configure_gemini], the reset button (which pops the
    keys and reruns), the seed message, then the widget that fired. *)
Definition page_run (c : Config) (w : Widget) : Act unit :=
  update (λ s, (configure_gemini c s).1);;
  match w with
  | ResetDemo =>
      update reset_demo;;
      update (λ s, (configure_gemini c s).1);;
      update seed_messages
  | PageLoad => update seed_messages
  | GetHint => update seed_messages;; on_hint_click
  | ChatInput user_input => update seed_messages;; on_chat_input user_input
  | SendGoodies email => update seed_messages;; update (send_goodies email)
  end.

(** A browsing session: a sequence of runs, each with what it finds
    outside the session, from a given session state. *)
Fixpoint browse (s : SessionState) (runs : list (Config * Env * Widget))
    : SessionState :=
  match runs with
  | [] => s
  | (c, e, w) :: rest => browse (state (page_run c w e s)) rest
  end.

End Page.

(** ** Auxiliary definitions for the page properties *)

(** The four fields the dialogue engine steers. *)
Definition core (s : SessionState) : Z * list string * Z * Z :=
  (progress s, badges s, module s, quiz_correct s).

(** The progress values each module can show. *)
Definition progress_band (s : SessionState) : Prop :=
  (module s = 0 ∧ progress s = 0) ∨
  (module s = 1 ∧ (progress s = 0 ∨ progress s = 20 ∨ progress s = 40)) ∨
  (module s = 2 ∧ (progress s = 50 ∨ progress s = 60 ∨ progress s = 80)) ∨
  (module s = 3 ∧ (progress s = 85 ∨ progress s = 90 ∨ progress s = 95 ∨
                   progress s = 100)).

(** The badges that can have been awarded by the time of module [m]. *)
Definition badges_upto (m : Z) : list string :=
  take (Z.to_nat (Z.max 1 m)) ALL_BADGES.

(** Which badges a session holds, by module and progress. *)
Definition badges_earned (s : SessionState) : Prop :=
  let explorer := badge_label "Prompt Explorer" "🔎" in
  let tinkerer := badge_label "AI Tinkerer" "🛠️" in
  0 ≤ module s ≤ 3 ∧
  (module s ≤ 1 →
     progress s ≤ 40 ∧ (explorer ∉ badges s) ∧ (tinkerer ∉ badges s)) ∧
  (module s = 2 → 50 ≤ progress s ≤ 80 ∧ (tinkerer ∉ badges s) ∧
                  ((60 ≤ progress s) ↔ (explorer ∈ badges s))) ∧
  (module s = 3 → 85 ≤ progress s ∧ (explorer ∈ badges s) ∧
                  ((90 ≤ progress s) ↔ (tinkerer ∈ badges s))).

(** * Properties *)

(** ** Evaluating actions *)

Ltac act_unfold :=
  unfold mbind, act_bind, mret, act_ret, get_session, update, time_time, send in *.

(** Reduce record projections and field updates, and nothing else. *)
Ltac act_simpl :=
  cbn [value state calls progress badges module messages quiz_correct
       email_captured gemini_ready gemini_model gemini_cache next_hint_ok_ts
       set_progress set_badges set_module set_messages set_quiz_correct
       set_gemini_ready set_gemini_cache set_next_hint_ok_ts
       negb andb orb app] in *.

(** Run an action symbolically: split on every test it makes. *)
Ltac act_cases :=
  act_unfold; repeat (act_simpl; case_match; simplify_eq); act_simpl.

Lemma str_in_spec (x : string) (xs : list string) :
  str_in x xs = true ↔ x ∈ xs.
Proof.
  unfold str_in. rewrite existsb_exists. split.
  - intros (y & Hy & Heq). apply String.eqb_eq in Heq. subst y.
    by apply list_elem_of_In.
  - intros Hx. exists x. split; [by apply list_elem_of_In|apply String.eqb_refl].
Qed.

Lemma NoDup_snoc_fresh (x : string) (xs : list string) :
  NoDup xs → negb (str_in x xs) = true → NoDup (xs ++ [x]).
Proof.
  intros Hnd Hfresh. apply NoDup_app. split_and!; [done| |apply NoDup_singleton].
  intros y Hy Hyx. apply list_elem_of_singleton in Hyx. subst y.
  apply str_in_spec in Hy. rewrite Hy in Hfresh. discriminate.
Qed.

Section Frame.
Context `{ops : !StrOps}.

(** [gemini_reply] touches only the cache and the cooldown timestamp. *)
Lemma gemini_reply_frame prompt temp key e s o :
  gemini_reply prompt temp key e s = o →
  progress (state o) = progress s ∧ badges (state o) = badges s ∧
  module (state o) = module s ∧ quiz_correct (state o) = quiz_correct s ∧
  gemini_ready (state o) = gemini_ready s ∧ messages (state o) = messages s.
Proof.
  intros <-. unfold gemini_reply. act_cases; auto 10.
Qed.

End Frame.

Ltac frame :=
  repeat match goal with
  | H : gemini_reply _ _ _ _ _ = MkOut _ _ _ |- _ =>
      apply gemini_reply_frame in H; act_simpl;
      let Hp := fresh in let Hb := fresh in let Hm := fresh in
      let Hq := fresh in
      destruct H as (Hp & Hb & Hm & Hq & _ & _);
      rewrite ?Hp, ?Hb, ?Hm, ?Hq in *; clear Hp Hb Hm Hq
  end.

(** Split a [route] call into the paths it can take; the coaching asides
    are kept abstract, so the results do not depend on the toggle. *)
Ltac route_cases :=
  unfold route, render_module_1, render_module_2, render_module_3,
    progress_to, badge, append_message in *;
  act_cases; frame.

Section Steps.
Context `{ops : !StrOps}.

Lemma route_progress_mono user_text e s :
  progress s ≤ progress (state (route user_text e s)).
Proof. route_cases; lia. Qed.

Lemma route_progress_range user_text e s :
  0 ≤ progress s ≤ 100 → 0 ≤ progress (state (route user_text e s)) ≤ 100.
Proof. intros Hp. route_cases; lia. Qed.

Lemma route_badges_NoDup user_text e s :
  NoDup (badges s) → NoDup (badges (state (route user_text e s))).
Proof. intros Hnd. route_cases; auto using NoDup_snoc_fresh. Qed.

Lemma route_module_delta user_text e s :
  let m' := module (state (route user_text e s)) in
  (module s ≠ 0 → m' = module s ∨ m' = module s + 1) ∧
  (module s = 0 → m' = if answers_quiz_1 user_text then 2 else 1) ∧
  (module s ≤ 3 → m' ≤ 3).
Proof.
  cbv zeta. split_and!; [route_cases; lia| |route_cases; lia].
  intros Hm. unfold answers_quiz_1. cbv zeta.
  route_cases; try lia.
  all: repeat match goal with
       | H : ?t = _ |- context [?t] => rewrite H
       end; try done.
Qed.

Lemma route_quiz_inv user_text e s :
  quiz_inv s → quiz_inv (state (route user_text e s)).
Proof. unfold quiz_inv. intros Hinv. route_cases; lia. Qed.

Lemma run_app s inputs1 inputs2 :
  run s (inputs1 ++ inputs2) = run (run s inputs1) inputs2.
Proof.
  revert s. induction inputs1 as [|[e u] rest IH]; intros s; cbn; [done|].
  apply IH.
Qed.

Lemma run_preserves (P : SessionState → Prop) :
  (∀ u e s, P s → P (state (route u e s))) →
  ∀ inputs s, P s → P (run s inputs).
Proof.
  intros Hstep inputs. induction inputs as [|[e u] rest IH]; intros s Hs; cbn.
  - done.
  - apply IH, Hstep, Hs.
Qed.

End Steps.

(** ** The hint client *)

Lemma Qltb_lt (a b : Q) : Qltb a b = true ↔ (a < b)%Q.
Proof.
  unfold Qltb. rewrite negb_true_iff, <- not_true_iff_false, Qle_bool_iff.
  split; [apply Qnot_le_lt|apply Qlt_not_le].
Qed.

Lemma Qltb_ge (a b : Q) : Qltb a b = false ↔ (b <= a)%Q.
Proof.
  unfold Qltb. by rewrite negb_false_iff, Qle_bool_iff.
Qed.

Lemma py_int_floor (x : Q) : (0 <= x)%Q → py_int x = Qfloor x.
Proof.
  destruct x as [n d]. unfold Qle, py_int. cbn. intros Hn.
  apply Z.quot_div_nonneg; lia.
Qed.

Lemma cache_entries_set_cache c s :
  cache_entries (set_gemini_cache (Some c) s) = c.
Proof. done. Qed.

Lemma cache_entries_set_ts t s :
  cache_entries (set_next_hint_ok_ts t s) = cache_entries s.
Proof. done. Qed.

Lemma next_ok_of_set_cache c s :
  next_ok_of (set_gemini_cache c s) = next_ok_of s.
Proof. done. Qed.

Lemma cache_entries_absent s : gemini_cache s = None → cache_entries s = ∅.
Proof. unfold cache_entries. by intros ->. Qed.

Ltac client_simpl :=
  act_simpl;
  rewrite ?cache_entries_set_cache, ?cache_entries_set_ts, ?next_ok_of_set_cache in *.

Section Client.
Context `{ops : !StrOps}.

(** A cached key is answered from the cache, whatever else holds. *)
Lemma gemini_reply_cached prompt temp cache_key e s cached :
  cache_entries s !! cache_key_of prompt cache_key = Some cached →
  let o := gemini_reply prompt temp cache_key e s in
  value o = cached ∧ calls o = [] ∧ cache_entries (state o) = cache_entries s.
Proof.
  intros Hkey. unfold gemini_reply. act_unfold.
  destruct (gemini_cache s) as [g|] eqn:Hc; client_simpl.
  - by rewrite Hkey.
  - rewrite (cache_entries_absent s Hc) in Hkey. by rewrite lookup_empty in Hkey.
Qed.

(** What a call does when its key is not cached, outcome by outcome. *)
Lemma gemini_reply_uncached prompt temp cache_key e s :
  let key := cache_key_of prompt cache_key in
  let o := gemini_reply prompt temp cache_key e s in
  cache_entries s !! key = None →
  if negb (gemini_ready s) then
    value o = UNCONFIGURED ∧ calls o = [] ∧ cache_entries (state o) = cache_entries s
  else if Qltb (now e) (next_ok_of s) then
    value o = cooling_down (py_int (next_ok_of s - now e)%Q) ∧ calls o = [] ∧
    cache_entries (state o) = cache_entries s
  else
    value o = text_of (generate_content e (request_of s prompt temp)) ∧
    calls o = [request_of s prompt temp] ∧
    cache_entries (state o) = <[key := value o]> (cache_entries s).
Proof.
  intros key o Hkey. subst key o. unfold gemini_reply, request_of, text_of.
  act_unfold.
  destruct (gemini_cache s) as [g|] eqn:Hc; client_simpl;
    [|rewrite (cache_entries_absent s Hc) in *; rewrite lookup_empty];
    rewrite ?Hkey; client_simpl;
    (destruct (gemini_ready s); client_simpl; [|done]);
    (destruct (Qltb (now e) _); client_simpl; [done|]);
    (destruct (generate_content e _) as [text|msg]; client_simpl; [done|]);
    (destruct (contains "429" msg || _); client_simpl; done).
Qed.

Lemma provider_outcome_is_cached prompt temp cache_key e s :
  let key := cache_key_of prompt cache_key in
  let o := gemini_reply prompt temp cache_key e s in
  cache_entries s !! key = None →
  gemini_ready s = true → (next_ok_of s <= now e)%Q →
  calls o = [request_of s prompt temp] ∧
  cache_entries (state o) !! key = Some (value o).
Proof.
  intros key o Hkey Hready Hge.
  pose proof (gemini_reply_uncached prompt temp cache_key e s Hkey) as Hu.
  cbv zeta in Hu. fold key o in Hu.
  apply Qltb_ge in Hge. rewrite Hready, Hge in Hu.
  destruct Hu as (Hv & Hc & Hs). split; [done|].
  rewrite Hs. apply lookup_insert_eq.
Qed.

Lemma gemini_reply_calls prompt temp cache_key e s :
  (length (calls (gemini_reply prompt temp cache_key e s)) ≤ 1)%nat.
Proof.
  destruct (cache_entries s !! cache_key_of prompt cache_key) as [c|] eqn:Hkey.
  - destruct (gemini_reply_cached _ temp _ e _ _ Hkey) as (_ & -> & _). cbn. lia.
  - pose proof (gemini_reply_uncached prompt temp cache_key e s Hkey) as Hu.
    cbv zeta in Hu. repeat case_match; destruct Hu as (_ & -> & _); cbn; lia.
Qed.

(** C9: a call for an uncached key, made with the client configured and
    the clock strictly before [next_hint_ok_ts], returns the cooldown
    sentinel, which embeds the remaining wait truncated to whole seconds,
    and sends nothing to the provider. *)
Theorem gemini_reply_cooldown prompt temp cache_key e s :
  cache_entries s !! cache_key_of prompt cache_key = None →
  gemini_ready s = true →
  (now e < next_ok_of s)%Q →
  let o := gemini_reply prompt temp cache_key e s in
  let wait := Qfloor (next_ok_of s - now e) in
  value o = "(Cooling down " +:+ pretty wait +:+ "s to respect free-tier limits…)" ∧
  (0 ≤ wait ∧ (inject_Z wait <= next_ok_of s - now e)%Q ∧
   (next_ok_of s - now e < inject_Z (wait + 1))%Q) ∧
  calls o = [].
Proof.
  intros Hkey Hready Hlt o wait.
  pose proof (gemini_reply_uncached prompt temp cache_key e s Hkey) as Hu.
  cbv zeta in Hu. rewrite Hready in Hu. cbn [negb] in Hu.
  apply Qltb_lt in Hlt as Hb. rewrite Hb in Hu. destruct Hu as (Hv & Hc & _).
  assert (0 <= next_ok_of s - now e)%Q as Hpos.
  { apply Qlt_le_weak. exact (proj1 (Qlt_minus_iff _ _) Hlt). }
  split_and!.
  - subst o wait. rewrite Hv. unfold cooling_down. by rewrite py_int_floor.
  - subst wait. rewrite <- (Qfloor_Z 0). by apply Qfloor_resp_le.
  - apply Qfloor_le.
  - apply Qlt_floor.
  - exact Hc.
Qed.

(** C1, as the code has it: for an uncached key the returned string is
    stored under the key exactly when the call reaches the provider (the
    client is configured and the cooldown has passed), whether the
    provider answers or fails; the unconfigured and the cooldown sentinels
    are returned without being stored, and the key stays uncached. *)
Theorem gemini_reply_caches_provider_outcomes prompt temp cache_key e s :
  let key := cache_key_of prompt cache_key in
  cache_entries s !! key = None →
  let o := gemini_reply prompt temp cache_key e s in
  (gemini_ready s = true → (next_ok_of s <= now e)%Q →
     calls o = [request_of s prompt temp] ∧
     value o = text_of (generate_content e (request_of s prompt temp)) ∧
     cache_entries (state o) !! key = Some (value o)) ∧
  (gemini_ready s = false →
     value o = UNCONFIGURED ∧ calls o = [] ∧
     cache_entries (state o) !! key = None) ∧
  (gemini_ready s = true → (now e < next_ok_of s)%Q →
     value o = cooling_down (py_int (next_ok_of s - now e)%Q) ∧ calls o = [] ∧
     cache_entries (state o) !! key = None).
Proof.
  intros key Hkey o.
  pose proof (gemini_reply_uncached prompt temp cache_key e s Hkey) as Hu.
  cbv zeta in Hu. fold key o in Hu. split_and!.
  - intros Hready Hge. apply Qltb_ge in Hge. rewrite Hready, Hge in Hu.
    destruct Hu as (Hv & Hc & Hs). split_and!; [done..|].
    rewrite Hs. apply lookup_insert_eq.
  - intros Hready. rewrite Hready in Hu. destruct Hu as (Hv & Hc & Hs).
    split_and!; [done..|]. by rewrite Hs.
  - intros Hready Hlt. apply Qltb_lt in Hlt. rewrite Hready, Hlt in Hu.
    destruct Hu as (Hv & Hc & Hs). split_and!; [done..|]. by rewrite Hs.
Qed.

(** A call that returns before reaching the provider leaves the cooldown
    deadline and the model name as they were. *)
Lemma gemini_reply_unreached prompt temp cache_key e s :
  let o := gemini_reply prompt temp cache_key e s in
  cache_entries s !! cache_key_of prompt cache_key = None →
  negb (gemini_ready s) || Qltb (now e) (next_ok_of s) = true →
  next_hint_ok_ts (state o) = next_hint_ok_ts s ∧
  gemini_model (state o) = gemini_model s.
Proof.
  intros o Hkey Hearly. subst o. unfold gemini_reply. act_unfold.
  destruct (gemini_cache s) as [g|] eqn:Hc; client_simpl;
    [|rewrite (cache_entries_absent s Hc) in *; rewrite lookup_empty];
    rewrite ?Hkey; client_simpl;
    (destruct (gemini_ready s); client_simpl; [|done]);
    cbn [negb orb] in Hearly; rewrite Hearly; by client_simpl.
Qed.

(** C2, as the code has it: two successive calls with the same effective
    key send at most one request to the provider between them, and return
    the same text unless the first call returned the cooldown sentinel
    (key uncached, client configured, clock before the deadline).  In that
    case nothing was cached, and the second call returns the cooldown
    sentinel for its own clock reading if that is still before the
    deadline, and the outcome of the provider otherwise. *)
Theorem gemini_reply_twice prompt1 temp1 key1 e1 prompt2 temp2 key2 e2 s :
  cache_key_of prompt1 key1 = cache_key_of prompt2 key2 →
  let key := cache_key_of prompt1 key1 in
  let o1 := gemini_reply prompt1 temp1 key1 e1 s in
  let o2 := gemini_reply prompt2 temp2 key2 e2 (state o1) in
  (length (calls o1 ++ calls o2) ≤ 1)%nat ∧
  (is_Some (cache_entries s !! key) ∨ gemini_ready s = false ∨
   (next_ok_of s <= now e1)%Q →
   value o2 = value o1 ∧ calls o2 = []) ∧
  (cache_entries s !! key = None → gemini_ready s = true →
   (now e1 < next_ok_of s)%Q →
   value o1 = cooling_down (py_int (next_ok_of s - now e1)%Q) ∧ calls o1 = [] ∧
   ((now e2 < next_ok_of s)%Q →
    value o2 = cooling_down (py_int (next_ok_of s - now e2)%Q) ∧ calls o2 = []) ∧
   ((next_ok_of s <= now e2)%Q →
    value o2 = text_of (generate_content e2 (request_of s prompt2 temp2)) ∧
    calls o2 = [request_of s prompt2 temp2])).
Proof.
  intros Hsame key o1 o2.
  pose proof (gemini_reply_frame prompt1 temp1 key1 e1 s o1 eq_refl)
    as (_ & _ & _ & _ & Hready1 & _).
  pose proof (gemini_reply_calls prompt2 temp2 key2 e2 (state o1)) as Hle2.
  fold o2 in Hle2.
  destruct (cache_entries s !! key) as [c|] eqn:Hkey.
  { (* answered from the cache, twice *)
    destruct (gemini_reply_cached _ temp1 _ e1 _ _ Hkey) as (Hv1 & Hc1 & Hs1).
    fold o1 in Hv1, Hc1, Hs1.
    assert (cache_entries (state o1) !! cache_key_of prompt2 key2 = Some c) as Hhit.
    { rewrite <- Hsame. fold key. by rewrite Hs1. }
    destruct (gemini_reply_cached _ temp2 _ e2 _ _ Hhit) as (Hv2 & Hc2 & _).
    fold o2 in Hv2, Hc2.
    split_and!; [rewrite Hc1, Hc2; cbn; lia|by rewrite Hv1, Hv2|done]. }
  pose proof (gemini_reply_uncached prompt1 temp1 key1 e1 s Hkey) as Hu.
  cbv zeta in Hu. fold key o1 in Hu.
  destruct (gemini_ready s) eqn:Hready; cbn [negb] in Hu.
  - destruct (Qltb (now e1) (next_ok_of s)) eqn:Hlt.
    + (* cooling down: nothing cached, the second call decides afresh *)
      destruct Hu as (Hv1 & Hc1 & Hs1).
      destruct (gemini_reply_unreached prompt1 temp1 key1 e1 s Hkey)
        as (Hts & Hmodel); [by rewrite Hready, Hlt|]. fold o1 in Hts, Hmodel.
      assert (next_ok_of (state o1) = next_ok_of s) as Hok.
      { unfold next_ok_of. by rewrite Hts. }
      assert (request_of (state o1) prompt2 temp2 = request_of s prompt2 temp2)
        as Hreq.
      { unfold request_of. by rewrite Hmodel. }
      assert (cache_entries (state o1) !! cache_key_of prompt2 key2 = None)
        as Hkey2.
      { rewrite <- Hsame. fold key. by rewrite Hs1. }
      pose proof (gemini_reply_uncached prompt2 temp2 key2 e2 (state o1) Hkey2)
        as Hu2.
      cbv zeta in Hu2. fold o2 in Hu2.
      rewrite Hready1, Hok, Hreq in Hu2. cbn [negb] in Hu2.
      split_and!.
      * rewrite Hc1. cbn. lia.
      * intros [[? ?]|[?|Hge]]; [done..|].
        apply Qltb_ge in Hge. congruence.
      * intros _ _ _. split_and!; [done..| |].
        -- intros Hlt2%Qltb_lt. rewrite Hlt2 in Hu2. by destruct Hu2 as (? & ? & _).
        -- intros Hge2%Qltb_ge. rewrite Hge2 in Hu2. by destruct Hu2 as (? & ? & _).
    + (* reached the provider: the outcome is cached *)
      destruct (provider_outcome_is_cached prompt1 temp1 key1 e1 s Hkey Hready)
        as (Hc1 & Hs1); [by apply Qltb_ge|]. fold key o1 in Hc1, Hs1.
      assert (cache_entries (state o1) !! cache_key_of prompt2 key2
              = Some (value o1)) as Hhit by (by rewrite <- Hsame).
      destruct (gemini_reply_cached _ temp2 _ e2 _ _ Hhit) as (Hv2 & Hc2 & _).
      fold o2 in Hv2, Hc2.
      split_and!; [rewrite Hc1, Hc2; cbn; lia|done|].
      intros _ _ Hlt'%Qltb_lt. congruence.
  - (* unconfigured, twice *)
    destruct Hu as (Hv1 & Hc1 & Hs1).
    assert (cache_entries (state o1) !! cache_key_of prompt2 key2 = None)
      as Hkey2.
    { rewrite <- Hsame. fold key. by rewrite Hs1. }
    pose proof (gemini_reply_uncached prompt2 temp2 key2 e2 (state o1) Hkey2)
      as Hu2.
    cbv zeta in Hu2. fold o2 in Hu2. rewrite Hready1 in Hu2. cbn [negb] in Hu2.
    destruct Hu2 as (Hv2 & Hc2 & _).
    split_and!; [rewrite Hc1, Hc2; cbn; lia|by rewrite Hv1, Hv2|done].
Qed.

End Client.

Lemma gemini_reply_cooldown_witness :
  let o := gemini_reply (ops := ascii_ops) "Give one short hint." (7 # 10)%Q
             (Some "hint_m2") (offline_at 10) cooling_session in
  value o = "(Cooling down 20s to respect free-tier limits…)" ∧ calls o = [].
Proof.
  destruct (gemini_reply_cooldown (ops := ascii_ops) "Give one short hint."
              (7 # 10)%Q (Some "hint_m2") (offline_at 10) cooling_session)
    as (Hv & _ & Hc); [reflexivity..|].
  split; [exact Hv|exact Hc].
Defined.

Lemma gemini_reply_caches_provider_outcomes_witness :
  let o := gemini_reply (ops := ascii_ops) "Give one short hint." (7 # 10)%Q None
             (answering_at 100 "  Think of autocomplete. ") configured_session in
  value o = "Think of autocomplete." ∧
  cache_entries (state o) !! "Give one short hint." = Some "Think of autocomplete.".
Proof.
  destruct (gemini_reply_caches_provider_outcomes (ops := ascii_ops)
              "Give one short hint." (7 # 10)%Q None
              (answering_at 100 "  Think of autocomplete. ") configured_session
              eq_refl) as (Hstored & _ & _).
  destruct Hstored as (_ & Hv & Hs); [reflexivity|by vm_compute|].
  split; [exact Hv|exact Hs].
Defined.

(** C1, as stated, fails: on an unconfigured session the sentinel is
    returned and the key is still absent from the cache afterwards. *)
Lemma gemini_reply_unconfigured_not_cached :
  let o := gemini_reply (ops := ascii_ops) "Give one short hint." (7 # 10)%Q
             (Some "hint_m1") (offline_at 0) init_state in
  cache_entries init_state !! "hint_m1" = None ∧
  value o = "(Hint unavailable: Gemini key not configured.)" ∧
  cache_entries (state o) !! "hint_m1" = None.
Proof. by vm_compute. Qed.

Lemma gemini_reply_twice_witness :
  let o1 := gemini_reply (ops := ascii_ops) "Give one short hint." (7 # 10)%Q
              (Some "hint_m1") (answering_at 100 " Think of autocomplete. ")
              configured_session in
  let o2 := gemini_reply (ops := ascii_ops) "Another prompt." (3 # 10)%Q
              (Some "hint_m1") (answering_at 200 "Something else.") (state o1) in
  (length (calls o1 ++ calls o2) ≤ 1)%nat ∧
  value o1 = "Think of autocomplete." ∧ value o2 = value o1 ∧ calls o2 = [].
Proof.
  destruct (gemini_reply_twice (ops := ascii_ops)
              "Give one short hint." (7 # 10)%Q (Some "hint_m1")
              (answering_at 100 " Think of autocomplete. ")
              "Another prompt." (3 # 10)%Q (Some "hint_m1")
              (answering_at 200 "Something else.") configured_session eq_refl)
    as (Hcalls & Hsame & _).
  destruct Hsame as (Hv & Hc); [right; right; by vm_compute|].
  split_and!; [exact Hcalls|reflexivity|exact Hv|exact Hc].
Defined.

(** C2, as stated, fails: while the client is cooling down nothing is
    cached, so two successive calls with the same cache key return two
    different texts (the remaining wait differs). *)
Lemma cooldown_texts_differ :
  let o1 := gemini_reply (ops := ascii_ops) "Give one short hint." (7 # 10)%Q
              (Some "hint_m2") (offline_at 10) cooling_session in
  let o2 := gemini_reply (ops := ascii_ops) "Give one short hint." (7 # 10)%Q
              (Some "hint_m2") (offline_at 15) (state o1) in
  value o1 = "(Cooling down 20s to respect free-tier limits…)" ∧
  value o2 = "(Cooling down 15s to respect free-tier limits…)" ∧
  String.eqb (value o1) (value o2) = false.
Proof. by vm_compute. Qed.

(** ** The dialogue engine *)

Section Engine.
Context `{ops : !StrOps}.

(** C3: at any point of any sequence of [route] calls, from any session,
    the next call leaves [progress] at least as large as it was; and if
    the session started with [progress] within 0..100, it is still within
    0..100 after the call. *)
Theorem progress_monotone_bounded s inputs e user_text :
  let before := run s inputs in
  let after := state (route user_text e before) in
  progress before ≤ progress after ∧
  (0 ≤ progress s ≤ 100 → 0 ≤ progress after ≤ 100).
Proof.
  intros before after. split.
  - apply route_progress_mono.
  - intros Hs. apply route_progress_range.
    apply (run_preserves (λ s, 0 ≤ progress s ≤ 100)); [|done].
    intros. by apply route_progress_range.
Qed.

(** C4, as the code has it: a [route] call never lowers [module]; from a
    module other than 0 it leaves it or raises it by exactly 1; from the
    welcome state 0 it raises it to 2 exactly when the Module 1 handler
    takes its quiz-answer branch on the input (an answer A, B or C), in
    the same call, and to 1 otherwise; and a session that started with
    [module] at most 3 never exceeds 3. *)
Theorem module_step s inputs e user_text :
  let before := run s inputs in
  let after := state (route user_text e before) in
  (module before ≠ 0 →
     module after = module before ∨ module after = module before + 1) ∧
  (module before = 0 →
     module after = if answers_quiz_1 user_text then 2 else 1) ∧
  (module s ≤ 3 → module after ≤ 3).
Proof.
  intros before after.
  destruct (route_module_delta user_text e before) as (Hpos & Hzero & Hmax).
  split_and!; [done..|].
  intros Hs. apply Hmax.
  apply (run_preserves (λ s, module s ≤ 3)); [|done].
  intros u e' s' Hs'. by apply route_module_delta.
Qed.

(** C5: a badge list without duplicates stays without duplicates through
    every sequence of [route] calls, however often a branch that awards a
    badge is taken again. *)
Theorem badges_never_duplicate s inputs :
  NoDup (badges s) → NoDup (badges (run s inputs)).
Proof.
  intros Hs. apply (run_preserves (λ s, NoDup (badges s))); [|done].
  intros. by apply route_badges_NoDup.
Qed.

(** C10: in every session reached from the initial one by [route] calls,
    [quiz_correct] is at most 2. *)
Theorem quiz_correct_at_most_2 inputs :
  quiz_correct (run init_state inputs) ≤ 2.
Proof.
  assert (quiz_inv (run init_state inputs)) as Hinv.
  { apply (run_preserves quiz_inv).
    - intros. by apply route_quiz_inv.
    - unfold quiz_inv. cbn. lia. }
  unfold quiz_inv in Hinv. lia.
Qed.

End Engine.

Lemma progress_monotone_bounded_witness :
  let before := run (ops := ascii_ops) init_state [(offline_at 0, "begin")] in
  let after := state (route (ops := ascii_ops) "Netflix" (offline_at 5) before) in
  progress before = 20 ∧ progress after = 40 ∧
  progress before ≤ progress after ∧ 0 ≤ progress after ≤ 100.
Proof.
  destruct (progress_monotone_bounded (ops := ascii_ops) init_state
              [(offline_at 0, "begin")] (offline_at 5) "Netflix")
    as (Hmono & Hrange).
  split_and!; [reflexivity|reflexivity|exact Hmono|apply Hrange; by vm_compute..].
Defined.

Lemma module_step_witness :
  let before := run (ops := ascii_ops) init_state
                  [(offline_at 0, "begin"); (offline_at 5, "Netflix")] in
  let after := state (route (ops := ascii_ops) "B" (offline_at 9) before) in
  let greeted := state (route (ops := ascii_ops) "hello" (offline_at 0) init_state) in
  let answered := state (route (ops := ascii_ops) " c " (offline_at 0) init_state) in
  (module before = 1 ∧ module after = 2 ∧ module after ≤ 3) ∧
  module greeted = 1 ∧ module answered = 2.
Proof.
  destruct (module_step (ops := ascii_ops) init_state
              [(offline_at 0, "begin"); (offline_at 5, "Netflix")]
              (offline_at 9) "B") as (_ & _ & Hmax).
  destruct (module_step (ops := ascii_ops) init_state [] (offline_at 0) "hello")
    as (_ & Hgreeted & _).
  destruct (module_step (ops := ascii_ops) init_state [] (offline_at 0) " c ")
    as (_ & Hanswered & _).
  split_and!;
    [reflexivity|reflexivity|apply Hmax; by vm_compute
    |exact (Hgreeted eq_refl)|exact (Hanswered eq_refl)].
Defined.

(** C4, as stated, fails: the first input of a session is handled by
    Module 1 in the same call that leaves the welcome state, so answering
    the quiz at once takes [module] from 0 to 2 in a single call. *)
Lemma module_jumps_from_welcome :
  let after := state (route (ops := ascii_ops) "B" (offline_at 0) init_state) in
  module init_state = 0 ∧ module after = 2.
Proof. by vm_compute. Qed.

Lemma badges_never_duplicate_witness :
  badges (run (ops := ascii_ops) init_state
            [(offline_at 0, "begin"); (offline_at 1, "begin"); (offline_at 2, "BEGIN")])
  = ["🏅 Concept Spark"] ∧
  NoDup (badges (run (ops := ascii_ops) init_state
            [(offline_at 0, "begin"); (offline_at 1, "begin"); (offline_at 2, "BEGIN")])).
Proof.
  split; [reflexivity|].
  apply (badges_never_duplicate (ops := ascii_ops) init_state). apply NoDup_nil_2.
Defined.

(** ** Scenarios on ASCII input *)

(** A test on a literal input is decided by evaluation. *)
Ltac absurd_test :=
  match goal with
  | H : _ = true |- _ => vm_compute in H; discriminate H
  | H : _ = false |- _ => vm_compute in H; discriminate H
  end.

(** C6, as the code has it: in a fresh session, whether still at the
    welcome state or already at module 1, the input "begin" brings
    [progress] to at least 20, puts the label of the Concept Spark badge
    into [badges], which is the medal emoji, a space and the name, and
    leaves [module] at 1. *)
Theorem begin_awards_concept_spark e :
  let fresh := state (route (ops := ascii_ops) "begin" e module_1_session) in
  let first := state (route (ops := ascii_ops) "begin" e init_state) in
  (20 ≤ progress fresh ∧ badge_label "Concept Spark" "🏅" ∈ badges fresh ∧
   module fresh = 1) ∧
  (20 ≤ progress first ∧ badge_label "Concept Spark" "🏅" ∈ badges first ∧
   module first = 1) ∧
  badges fresh = ["🏅 Concept Spark"] ∧
  contains "Concept Spark" (badge_label "Concept Spark" "🏅") = true.
Proof.
  vm_compute. split_and!; try done; apply list_elem_of_here.
Qed.

(** C6, as stated, fails: after "begin" the badge list holds the label
    with its emoji, and the bare name "Concept Spark" is not an element
    of it. *)
Lemma bare_name_is_no_badge :
  let fresh := state (route (ops := ascii_ops) "begin" (offline_at 0)
                        module_1_session) in
  badges fresh = ["🏅 Concept Spark"] ∧
  str_in "Concept Spark" (badges fresh) = false.
Proof. by vm_compute. Qed.

(** C7: at module 1 with [progress] at least 40, the answer "B" adds
    exactly 1 to [quiz_correct], and the answer "A" leaves it unchanged;
    both bring [progress] to at least 50 and set [module] to 2. *)
Theorem quiz_answer_at_module_1 e s :
  module s = 1 → 40 ≤ progress s →
  let right := state (route (ops := ascii_ops) "B" e s) in
  let wrong := state (route (ops := ascii_ops) "A" e s) in
  (quiz_correct right = quiz_correct s + 1 ∧ 50 ≤ progress right ∧
   module right = 2) ∧
  (quiz_correct wrong = quiz_correct s ∧ 50 ≤ progress wrong ∧
   module wrong = 2).
Proof.
  intros Hm Hp right wrong. subst right wrong.
  split; (route_cases; try absurd_test; try lia).
Qed.

Lemma quiz_answer_at_module_1_witness :
  let s := set_progress 40 module_1_session in
  let right := state (route (ops := ascii_ops) "B" (offline_at 0) s) in
  let wrong := state (route (ops := ascii_ops) "A" (offline_at 0) s) in
  (quiz_correct right = 1 ∧ progress right = 50 ∧ module right = 2) ∧
  (quiz_correct wrong = 0 ∧ progress wrong = 50 ∧ module wrong = 2).
Proof.
  pose proof (quiz_answer_at_module_1 (offline_at 0)
                (set_progress 40 module_1_session) eq_refl) as Hq.
  destruct Hq as ((Hr & _ & Hmr) & (Hw & _ & Hmw)); [by vm_compute|].
  split; split_and!; [exact Hr|reflexivity|exact Hmr|exact Hw|reflexivity|exact Hmw].
Defined.

(** C8: at module 3 with [progress] between 95 and 100, the input "done"
    sets [progress] to exactly 100 and returns the closing message, whose
    report card shows [min(5, 3 + quiz_correct)] filled stars for Concepts
    and [min(5, 2 + quiz_correct)] for Prompt Craft, each followed by the
    remainder of five as empty stars: three and two filled stars for a
    score of 0, five and four for a score of 2. *)
Theorem done_shows_report_card e s :
  module s = 3 → 95 ≤ progress s ≤ 100 →
  let o := route (ops := ascii_ops) "done" e s in
  let quiz := quiz_correct s in
  let newline := String (Ascii.ascii_of_nat 10) EmptyString in
  let times := λ (star : string) (n : Z),
    String.concat EmptyString (replicate (Z.to_nat n) star) in
  let stars := λ base : Z,
    times "★" (Z.min 5 (base + quiz)) +:+
    times "☆" (5 - Z.min 5 (base + quiz)) in
  let card := λ concepts prompt_craft : string,
    "👏 Nicely done. You've completed the free track!" +:+ newline +:+ newline +:+
    "## 🔒 Locked Level: Applied AI Playbooks" +:+ newline +:+
    "- 12 advanced prompt frameworks" +:+ newline +:+
    "- Case studies + templates" +:+ newline +:+
    "- Certificate + full Report Card" +:+ newline +:+ newline +:+
    "👉 **Unlock via the AI Learning Academy:** [Enroll to unlock](https://example.com/enroll)" +:+ newline +:+ newline +:+
    "### Report Card (Preview)" +:+ newline +:+
    "- Concepts: " +:+ concepts +:+ newline +:+
    "- Prompt Craft: " +:+ prompt_craft +:+ newline +:+
    "- Applied Practice: ★★★☆☆" +:+ newline +:+
    "- Consistency: ★★☆☆☆" +:+ newline +:+ newline +:+
    "_Enter your email to receive your badges + preview report & a limited-time coupon._" in
  progress (state o) = 100 ∧
  value o = card (stars 3) (stars 2) ∧
  (quiz = 0 → value o = card "★★★☆☆" "★★☆☆☆") ∧
  (quiz = 2 → value o = card "★★★★★" "★★★★☆").
Proof.
  intros Hm Hp o quiz newline times stars card.
  assert (progress (state o) = 100 ∧ value o = report_card (quiz_correct s))
    as [Hprog Hval].
  { subst o. route_cases; try absurd_test; try lia. split; [lia|done]. }
  rewrite Hval. fold quiz. split_and!.
  - done.
  - unfold report_card, report_card_with, str_repeat, nl.
    subst card stars times newline. cbv beta.
    by replace (Z.max 0 (5 - (3 + quiz))) with (5 - Z.min 5 (3 + quiz)) by lia;
       replace (Z.max 0 (5 - (2 + quiz))) with (5 - Z.min 5 (2 + quiz)) by lia.
  - by intros ->.
  - by intros ->.
Qed.

Lemma done_shows_report_card_witness :
  let s := set_quiz_correct 2 (set_progress 95 (set_module 3 init_state)) in
  let o := route (ops := ascii_ops) "done" (offline_at 0) s in
  let newline := String (Ascii.ascii_of_nat 10) EmptyString in
  progress (state o) = 100 ∧
  value o =
    "👏 Nicely done. You've completed the free track!" +:+ newline +:+ newline +:+
    "## 🔒 Locked Level: Applied AI Playbooks" +:+ newline +:+
    "- 12 advanced prompt frameworks" +:+ newline +:+
    "- Case studies + templates" +:+ newline +:+
    "- Certificate + full Report Card" +:+ newline +:+ newline +:+
    "👉 **Unlock via the AI Learning Academy:** [Enroll to unlock](https://example.com/enroll)" +:+ newline +:+ newline +:+
    "### Report Card (Preview)" +:+ newline +:+
    "- Concepts: ★★★★★" +:+ newline +:+
    "- Prompt Craft: ★★★★☆" +:+ newline +:+
    "- Applied Practice: ★★★☆☆" +:+ newline +:+
    "- Consistency: ★★☆☆☆" +:+ newline +:+ newline +:+
    "_Enter your email to receive your badges + preview report & a limited-time coupon._".
Proof.
  destruct (done_shows_report_card (offline_at 0)
              (set_quiz_correct 2 (set_progress 95 (set_module 3 init_state)))
              eq_refl) as (Hp & _ & _ & Hv); [by vm_compute|].
  split; [exact Hp|exact (Hv eq_refl)].
Defined.

(** * Further properties of the page *)

(** ** The hint client: cache and cooldown *)

Lemma str_or_nonempty a b : b ≠ EmptyString → str_or a b ≠ EmptyString.
Proof.
  unfold str_or. intros Hb. destruct (String.eqb a EmptyString) eqn:Ha; [done|].
  by apply String.eqb_neq in Ha.
Qed.

Lemma str_or_empty_r a : str_or a EmptyString = a.
Proof.
  unfold str_or. destruct (String.eqb a EmptyString) eqn:Ha; [|done].
  by apply String.eqb_eq in Ha.
Qed.

Section ClientMore.
Context `{ops : !StrOps}.

(** The cooldown deadline after a call, outcome by outcome. *)
Lemma gemini_reply_deadline prompt temp cache_key e s :
  let key := cache_key_of prompt cache_key in
  let o := gemini_reply prompt temp cache_key e s in
  let r := generate_content e (request_of s prompt temp) in
  next_hint_ok_ts (state o) =
    if bool_decide (is_Some (cache_entries s !! key)) then next_hint_ok_ts s
    else if negb (gemini_ready s) then next_hint_ok_ts s
    else if Qltb (now e) (next_ok_of s) then next_hint_ok_ts s
    else match r with
         | Raised _ =>
             if rate_limited r
             then Some (now e + inject_Z HINT_COOLDOWN_SEC)%Q
             else next_hint_ok_ts s
         | Generated _ => Some (now e + inject_Z HINT_COOLDOWN_SEC)%Q
         end.
Proof.
  intros key o r. subst key o r. unfold gemini_reply, request_of, rate_limited.
  act_unfold.
  destruct (gemini_cache s) as [g|] eqn:Hc; client_simpl;
    [|rewrite (cache_entries_absent s Hc) in *; rewrite lookup_empty];
    [destruct (cache_entries s !! _) eqn:Hkey|];
    try (rewrite bool_decide_eq_true_2 by eauto; client_simpl; done);
    (rewrite bool_decide_eq_false_2 by (intros [? ?]; done)); client_simpl;
    (destruct (gemini_ready s); client_simpl; [|done]);
    (destruct (Qltb (now e) _); client_simpl; [done|]);
    (destruct (generate_content e _) as [text|msg]; client_simpl; [done|]);
    (destruct (contains "429" msg || _); client_simpl; done).
Qed.

Lemma cache_lookup_frame prompt temp cache_key e s k :
  k ≠ cache_key_of prompt cache_key ∨ is_Some (cache_entries s !! k) →
  cache_entries (state (gemini_reply prompt temp cache_key e s)) !! k =
  cache_entries s !! k.
Proof.
  intros Hk.
  destruct (cache_entries s !! cache_key_of prompt cache_key) as [c|] eqn:Hkey.
  - destruct (gemini_reply_cached _ temp _ e _ _ Hkey) as (_ & _ & ->). done.
  - assert (k ≠ cache_key_of prompt cache_key) as Hne.
    { destruct Hk as [?|[v Hv]]; [done|]. intros ->. congruence. }
    pose proof (gemini_reply_uncached prompt temp cache_key e s Hkey) as Hu.
    cbv zeta in Hu. repeat case_match; destruct Hu as (_ & _ & ->); try done.
    by rewrite lookup_insert_ne.
Qed.

(** X1: a call changes at most the cache entry of its own key, and that
    only if the key was not cached: every entry already present, and every
    other key, reads the same after the call as before. *)
Theorem gemini_reply_cache_frame prompt temp cache_key e s k :
  k ≠ cache_key_of prompt cache_key ∨ is_Some (cache_entries s !! k) →
  cache_entries (state (gemini_reply prompt temp cache_key e s)) !! k =
  cache_entries s !! k.
Proof. apply cache_lookup_frame. Qed.

(** X2: the cooldown deadline never moves backwards. *)
Theorem gemini_reply_deadline_monotone prompt temp cache_key e s :
  (next_ok_of s <= next_ok_of (state (gemini_reply prompt temp cache_key e s)))%Q.
Proof.
  pose proof (gemini_reply_deadline prompt temp cache_key e s) as Hd.
  cbv zeta in Hd. unfold next_ok_of at 2. rewrite Hd.
  assert (Qltb (now e) (next_ok_of s) = false →
          next_ok_of s <= now e + inject_Z HINT_COOLDOWN_SEC)%Q as Hlater.
  { intros Hge%Qltb_ge. apply Qle_trans with (now e); [done|].
    rewrite <- (Qplus_0_r (now e)) at 1. apply Qplus_le_r. done. }
  repeat case_match; try apply Qle_refl; by apply Hlater.
Qed.

(** X3: pacing.  Once a call has reached the provider and got an answer or
    a rate-limit error, a call for another uncached key made less than
    [HINT_COOLDOWN_SEC] seconds later sends nothing and returns the
    cooldown sentinel. *)
Theorem gemini_reply_paces_calls prompt1 temp1 key1 e1 prompt2 temp2 key2 e2 s :
  let k1 := cache_key_of prompt1 key1 in
  let k2 := cache_key_of prompt2 key2 in
  let r1 := generate_content e1 (request_of s prompt1 temp1) in
  cache_entries s !! k1 = None → cache_entries s !! k2 = None → k2 ≠ k1 →
  gemini_ready s = true → (next_ok_of s <= now e1)%Q →
  (∀ msg, r1 = Raised msg → rate_limited r1 = true) →
  (now e2 < now e1 + inject_Z HINT_COOLDOWN_SEC)%Q →
  let o1 := gemini_reply prompt1 temp1 key1 e1 s in
  let o2 := gemini_reply prompt2 temp2 key2 e2 (state o1) in
  calls o1 = [request_of s prompt1 temp1] ∧ calls o2 = [] ∧
  value o2 = cooling_down
               (py_int (now e1 + inject_Z HINT_COOLDOWN_SEC - now e2)%Q).
Proof.
  intros k1 k2 r1 Hk1 Hk2 Hne Hready Hge Hr1 Hlt o1 o2.
  destruct (provider_outcome_is_cached prompt1 temp1 key1 e1 s Hk1 Hready Hge)
    as (Hc1 & _).
  assert (next_hint_ok_ts (state o1) =
          Some (now e1 + inject_Z HINT_COOLDOWN_SEC)%Q) as Hts.
  { pose proof (gemini_reply_deadline prompt1 temp1 key1 e1 s) as Hd.
    cbv zeta in Hd. fold k1 r1 o1 in Hd. rewrite Hd.
    rewrite bool_decide_eq_false_2 by (rewrite Hk1; by intros [? ?]).
    rewrite Hready. cbn [negb].
    apply Qltb_ge in Hge. rewrite Hge.
    destruct r1 as [text|msg] eqn:Er; [done|]. by rewrite (Hr1 msg). }
  assert (next_ok_of (state o1) = (now e1 + inject_Z HINT_COOLDOWN_SEC)%Q) as Hok.
  { unfold next_ok_of. by rewrite Hts. }
  assert (cache_entries (state o1) !! k2 = None) as Hk2'.
  { subst o1. rewrite cache_lookup_frame by (by left). done. }
  assert (gemini_ready (state o1) = true) as Hready'.
  { destruct (gemini_reply_frame prompt1 temp1 key1 e1 s o1 eq_refl)
      as (_ & _ & _ & _ & -> & _). done. }
  pose proof (gemini_reply_uncached prompt2 temp2 key2 e2 (state o1) Hk2') as Hu.
  cbv zeta in Hu. fold o2 in Hu. rewrite Hready', Hok in Hu. cbn [negb] in Hu.
  apply Qltb_lt in Hlt. rewrite Hlt in Hu. destruct Hu as (Hv & Hc2 & _).
  done.
Qed.

(** X4: a reply is never the empty string, provided no cached text is
    empty; and a call keeps the cache free of empty texts. *)
Theorem gemini_reply_nonempty prompt temp cache_key e s :
  (∀ k v, cache_entries s !! k = Some v → v ≠ EmptyString) →
  let o := gemini_reply prompt temp cache_key e s in
  value o ≠ EmptyString ∧
  (∀ k v, cache_entries (state o) !! k = Some v → v ≠ EmptyString).
Proof.
  intros Hcache o.
  assert (value o ≠ EmptyString) as Hv.
  { destruct (cache_entries s !! cache_key_of prompt cache_key) as [c|] eqn:Hkey.
    - destruct (gemini_reply_cached _ temp _ e _ _ Hkey) as (Hv & _ & _).
      fold o in Hv. rewrite Hv. by eapply Hcache.
    - pose proof (gemini_reply_uncached prompt temp cache_key e s Hkey) as Hu.
      cbv zeta in Hu. fold o in Hu.
      repeat case_match; destruct Hu as (-> & _ & _); try done.
      unfold text_of. repeat case_match; try done.
      by apply str_or_nonempty. }
  split; [done|]. intros k v Hk.
  destruct (decide (k = cache_key_of prompt cache_key)) as [->|Hne].
  - destruct (cache_entries s !! cache_key_of prompt cache_key) as [c|] eqn:Hkey.
    + subst o. rewrite cache_lookup_frame in Hk by (right; eauto).
      by eapply Hcache.
    + pose proof (gemini_reply_uncached prompt temp cache_key e s Hkey) as Hu.
      cbv zeta in Hu. fold o in Hu.
      repeat case_match; destruct Hu as (_ & _ & Hs); rewrite Hs in Hk;
        try congruence.
      rewrite lookup_insert_eq in Hk. congruence.
  - subst o. rewrite cache_lookup_frame in Hk by (by left).
    by eapply Hcache.
Qed.

(** X5: every reply for an uncached key other than a non-empty generated
    text starts with an opening parenthesis, the mark by which the hint
    button recognises a sentinel. *)
Theorem gemini_reply_sentinel_mark prompt temp cache_key e s :
  cache_entries s !! cache_key_of prompt cache_key = None →
  let o := gemini_reply prompt temp cache_key e s in
  startswith (value o) "(" = true ∨
  (∃ text, generate_content e (request_of s prompt temp) = Generated text ∧
           value o = py_strip (default EmptyString text) ∧
           value o ≠ EmptyString ∧ calls o = [request_of s prompt temp]).
Proof.
  intros Hkey o.
  pose proof (gemini_reply_uncached prompt temp cache_key e s Hkey) as Hu.
  cbv zeta in Hu. fold o in Hu.
  destruct (negb (gemini_ready s)); [left; by destruct Hu as (-> & _)|].
  destruct (Qltb (now e) (next_ok_of s)); [left; by destruct Hu as (-> & _)|].
  destruct Hu as (Hv & Hc & _). rewrite Hv. unfold text_of.
  destruct (generate_content e _) as [text|msg] eqn:Hr.
  - rewrite str_or_empty_r. unfold str_or.
    destruct (String.eqb (py_strip _) EmptyString) eqn:He; [by left|].
    right. exists text. apply String.eqb_neq in He. by split_and!.
  - left. by destruct (contains "429" msg || _).
Qed.

End ClientMore.

(** ** The hint button *)

Lemma fallback_hint_cases (m : Z) :
  let k := Z.max 1 (Z.min 3 (if m =? 0 then 1 else m)) in
  (k = 1 ∨ k = 2 ∨ k = 3) ∧ (1 ≤ m ≤ 3 → k = m).
Proof. cbv zeta. destruct (m =? 0) eqn:Hm; lia. Qed.

Section HintButton.
Context `{ops : !StrOps}.

(** What a click does once Module 1 has begun, in terms of the reply of
    the client. *)
Lemma on_hint_click_shown e s :
  1 ≤ module s →
  let o := gemini_reply (value (current_hint_prompt e s)) (7 # 10)%Q
             (Some ("hint_m" +:+ pretty (module s))) e s in
  let hint :=
    if startswith (value o) "("
    then value (fallback_hint_for_current_module e s) +:+ " " +:+ value o
    else value o in
  on_hint_click e s =
    MkOut tt
      (set_messages
         (messages s ++ [{| role := "assistant"; content := "**Hint:** " +:+ hint |}])
         (state o))
      (calls o).
Proof.
  intros Hm o hint. subst hint o.
  assert (∀ s', module s' = module s →
            value (fallback_hint_for_current_module e s') =
            value (fallback_hint_for_current_module e s)) as Hfb.
  { intros s' Hs'. unfold fallback_hint_for_current_module. act_unfold.
    act_simpl. by rewrite Hs'. }
  unfold on_hint_click, append_message. act_unfold. act_simpl.
  assert ((1 <=? module s) = true) as -> by lia.
  destruct (current_hint_prompt e s) as [p s0 c0] eqn:Hp.
  assert (s0 = s ∧ c0 = []) as [-> ->].
  { unfold current_hint_prompt in Hp. act_cases; by simplify_eq. }
  act_simpl.
  destruct (gemini_reply p _ _ e s) as [v s1 c1] eqn:Hg.
  pose proof (gemini_reply_frame _ _ _ _ _ _ Hg) as (_ & _ & Hmod & _ & _ & Hmsg).
  act_simpl.
  destruct (startswith v "(") eqn:Hsw; act_simpl.
  - specialize (Hfb s1 Hmod).
    destruct (fallback_hint_for_current_module e s1) as [fb s2 c2] eqn:Hf.
    assert (s2 = s1 ∧ c2 = []) as [-> ->].
    { unfold fallback_hint_for_current_module in Hf. act_cases; by simplify_eq. }
    act_simpl. rewrite <- Hfb, Hmsg. by rewrite !app_nil_r.
  - rewrite Hmsg. by rewrite !app_nil_r.
Qed.

Lemma fallback_lookup e s :
  ∃ m, PREWRITTEN_HINTS !! m = Some (value (fallback_hint_for_current_module e s)) ∧
       (1 ≤ module s ≤ 3 → m = module s).
Proof.
  unfold fallback_hint_for_current_module. act_unfold. act_simpl.
  destruct (fallback_hint_cases (module s)) as (Hk & Hsame). cbv zeta in *.
  exists (Z.max 1 (Z.min 3 (if module s =? 0 then 1 else module s))).
  split; [|done]. destruct Hk as [->|[->| ->]]; reflexivity.
Qed.

(** X6: a click on "Get a hint" never touches progress, badges, module or
    quiz score and sends at most one request; before Module 1 has begun it
    does nothing at all, and afterwards it appends exactly one assistant
    message that starts with the hint label. *)
Theorem on_hint_click_effect e s :
  let o := on_hint_click e s in
  (progress (state o) = progress s ∧ badges (state o) = badges s ∧
   module (state o) = module s ∧ quiz_correct (state o) = quiz_correct s) ∧
  (length (calls o) ≤ 1)%nat ∧
  (module s < 1 → state o = s ∧ calls o = []) ∧
  (1 ≤ module s →
   ∃ hint, messages (state o) =
           messages s ++ [{| role := "assistant"; content := "**Hint:** " +:+ hint |}]).
Proof.
  intros o. destruct (decide (1 ≤ module s)) as [Hm|Hm].
  - pose proof (on_hint_click_shown e s Hm) as Ho. cbv zeta in Ho.
    fold o in Ho. rewrite Ho. act_simpl.
    match goal with |- context [gemini_reply ?p ?t ?k e s] =>
      pose proof (gemini_reply_frame p t k e s _ eq_refl) as (-> & -> & -> & -> & _);
      pose proof (gemini_reply_calls p t k e s) as Hlen
    end.
    split_and!; try done; try lia. intros _. eauto.
  - assert (o = MkOut tt s []) as ->.
    { subst o. unfold on_hint_click. act_unfold. act_simpl.
      by assert ((1 <=? module s) = false) as -> by lia. }
    act_simpl. split_and!; try done; cbn; lia.
Qed.

(** X7: the built-in hint returned as fallback is always one of the three
    prewritten hints, the one of the current module when that is 1, 2 or 3;
    the default text of the lookup is never used. *)
Theorem fallback_hint_is_prewritten e s :
  let o := fallback_hint_for_current_module e s in
  state o = s ∧ calls o = [] ∧
  ∃ m, 1 ≤ m ≤ 3 ∧ PREWRITTEN_HINTS !! m = Some (value o) ∧
       (1 ≤ module s ≤ 3 → m = module s).
Proof.
  intros o. subst o. unfold fallback_hint_for_current_module. act_unfold.
  act_simpl. split_and!; [done..|].
  destruct (fallback_hint_cases (module s)) as (Hk & Hsame). cbv zeta in *.
  exists (Z.max 1 (Z.min 3 (if module s =? 0 then 1 else module s))).
  split_and!; [lia|lia| |done].
  destruct Hk as [->|[->| ->]]; reflexivity.
Qed.

(** X8: with the client unconfigured, a click at module 1, 2 or 3 whose
    hint key is not cached sends nothing to the provider and shows the
    prewritten hint of that module followed by the sentinel. *)
Theorem on_hint_click_unconfigured e s h :
  1 ≤ module s ≤ 3 →
  PREWRITTEN_HINTS !! module s = Some h →
  gemini_ready s = false →
  cache_entries s !! ("hint_m" +:+ pretty (module s)) = None →
  let o := on_hint_click e s in
  calls o = [] ∧
  messages (state o) =
    messages s ++ [{| role := "assistant";
                      content := "**Hint:** " +:+ h +:+ " " +:+ UNCONFIGURED |}].
Proof.
  intros Hm Hh Hready Hkey o.
  pose proof (on_hint_click_shown e s (proj1 Hm)) as Ho. cbv zeta in Ho.
  fold o in Ho. rewrite Ho. act_simpl.
  match goal with |- context [gemini_reply ?p ?t ?k e s] =>
    assert (cache_entries s !! cache_key_of p k = None) as Hkey'
  end.
  { unfold cache_key_of, str_or. by case_match. }
  match goal with |- context [gemini_reply ?p ?t ?k e s] =>
    pose proof (gemini_reply_uncached p t k e s Hkey') as Hu
  end.
  cbv zeta in Hu. rewrite Hready in Hu. cbn [negb] in Hu.
  destruct Hu as (-> & -> & _). split; [done|].
  assert (value (fallback_hint_for_current_module e s) = h) as ->; [|done].
  destruct (fallback_lookup e s) as (m & Hlook & Hsame).
  rewrite (Hsame Hm) in Hlook. congruence.
Qed.

End HintButton.

Section HintReplay.
Context `{ops : !StrOps}.

Lemma fallback_hint_module e1 e2 s1 s2 :
  module s1 = module s2 →
  value (fallback_hint_for_current_module e1 s1) =
  value (fallback_hint_for_current_module e2 s2).
Proof.
  intros Hm. unfold fallback_hint_for_current_module. act_unfold. act_simpl.
  by rewrite Hm.
Qed.

(** X9: once a click has reached the provider, whatever it answered, a
    second click at the same module sends nothing more and shows the very
    same message again, even after the cooldown has passed. *)
Theorem on_hint_click_replay e1 e2 s :
  1 ≤ module s →
  cache_entries s !! ("hint_m" +:+ pretty (module s)) = None →
  gemini_ready s = true →
  (next_ok_of s <= now e1)%Q →
  let o1 := on_hint_click e1 s in
  let o2 := on_hint_click e2 (state o1) in
  length (calls o1) = 1%nat ∧ calls o2 = [] ∧
  ∃ shown, messages (state o1) = messages s ++ [shown] ∧
           messages (state o2) = messages s ++ [shown; shown].
Proof.
  intros Hm Hkey Hready Hge o1 o2.
  pose proof (on_hint_click_shown e1 s Hm) as H1. cbv zeta in H1. fold o1 in H1.
  set (p1 := value (current_hint_prompt e1 s)) in *.
  set (k := "hint_m" +:+ pretty (module s)) in *.
  set (g1 := gemini_reply p1 (7 # 10)%Q (Some k) e1 s) in *.
  assert (cache_key_of p1 (Some k) = k) as Hk.
  { unfold cache_key_of, str_or. subst k. by case_match. }
  assert (∀ p, cache_key_of p (Some k) = k) as Hk'.
  { intros p. unfold cache_key_of, str_or. subst k. by case_match. }
  rewrite <- Hk in Hkey.
  destruct (provider_outcome_is_cached p1 (7 # 10)%Q (Some k) e1 s Hkey Hready Hge)
    as (Hc1 & Hs1). fold g1 in Hc1, Hs1. rewrite Hk in Hs1.
  destruct (gemini_reply_frame p1 (7 # 10)%Q (Some k) e1 s g1 eq_refl)
    as (_ & _ & Hmod & _ & _ & _).
  assert (module (state o1) = module s) as Hmod1 by (by rewrite H1).
  assert (1 ≤ module (state o1)) as Hm1 by lia.
  pose proof (on_hint_click_shown e2 (state o1) Hm1) as H2. cbv zeta in H2.
  fold o2 in H2. rewrite Hmod1 in H2. fold k in H2.
  set (p2 := value (current_hint_prompt e2 (state o1))) in *.
  assert (cache_entries (state o1) !! cache_key_of p2 (Some k) = Some (value g1))
    as Hhit.
  { rewrite Hk'. by rewrite H1. }
  destruct (gemini_reply_cached p2 (7 # 10)%Q (Some k) e2 (state o1) _ Hhit)
    as (Hv2 & Hc2 & _).
  destruct (gemini_reply_frame p2 (7 # 10)%Q (Some k) e2 (state o1) _ eq_refl)
    as (_ & _ & _ & _ & _ & Hmsg2).
  rewrite (fallback_hint_module e2 e1 (state o1) s Hmod1) in H2.
  rewrite Hv2, Hc2 in H2.
  split_and!.
  - by rewrite H1, Hc1.
  - by rewrite H2.
  - eexists. split; [by rewrite H1|].
    rewrite H2. cbn [state messages set_messages]. rewrite H1 at 1.
    cbn [state messages set_messages]. by rewrite <- app_assoc.
Qed.

(** X10: "Reset demo" also forgets the cache and the cooldown: on a
    configured session the next call reaches the provider, whatever was
    cached and however recent the last request was. *)
Theorem reset_demo_lifts_cooldown prompt temp cache_key e s :
  gemini_ready s = true → (0 <= now e)%Q →
  let o := gemini_reply prompt temp cache_key e (reset_demo s) in
  calls o = [request_of s prompt temp] ∧
  cache_entries (state o) !! cache_key_of prompt cache_key = Some (value o).
Proof.
  intros Hready Hnow o.
  by apply (provider_outcome_is_cached prompt temp cache_key e (reset_demo s)).
Qed.

End HintReplay.

(** ** The dialogue engine and the page *)

Lemma andb_false_absurd (b : bool) : b && false = true → False.
Proof. by destruct b. Qed.

(** With the coaching toggle as configured, the coaching branches are dead. *)
Ltac no_coach :=
  repeat match goal with
  | H : AI_COACH_ENABLED && _ = true |- _ => discriminate H
  | H : _ && AI_COACH_ENABLED = true |- _ =>
      by apply andb_false_absurd in H
  end.

Ltac chat_cases :=
  unfold on_chat_input, route, render_module_1, render_module_2,
    render_module_3, progress_to, badge, append_message in *;
  act_cases; no_coach.

Section EngineMore.
Context `{ops : !StrOps}.

(** X11: with [AI_COACH_ENABLED] off, handling chat input never sends a
    request to the provider and leaves the cache, the cooldown and the
    readiness flag alone: only the hint button reaches Gemini. *)
Theorem chat_never_calls_gemini user_text e s :
  let o := route user_text e s in
  let c := on_chat_input user_text e s in
  (calls o = [] ∧ gemini_cache (state o) = gemini_cache s ∧
   next_hint_ok_ts (state o) = next_hint_ok_ts s ∧
   gemini_ready (state o) = gemini_ready s) ∧
  (calls c = [] ∧ gemini_cache (state c) = gemini_cache s ∧
   next_hint_ok_ts (state c) = next_hint_ok_ts s ∧
   gemini_ready (state c) = gemini_ready s).
Proof.
  split; chat_cases; done.
Qed.

Lemma core_seed_messages s : core (seed_messages s) = core s.
Proof. unfold seed_messages. by destruct (messages s). Qed.

Lemma core_configure_gemini c s : core (configure_gemini c s).1 = core s.
Proof. unfold configure_gemini. by repeat case_match. Qed.

Lemma core_send_goodies email s : core (send_goodies email s) = core s.
Proof. unfold send_goodies. by case_match. Qed.

Lemma on_hint_click_core e s : core (state (on_hint_click e s)) = core s.
Proof.
  destruct (decide (1 ≤ module s)) as [Hm|Hm].
  - pose proof (on_hint_click_shown e s Hm) as Ho. cbv zeta in Ho. rewrite Ho.
    match goal with |- context [gemini_reply ?p ?t ?k e s] =>
      pose proof (gemini_reply_frame p t k e s _ eq_refl) as (Hp & Hb & Hmo & Hq & _)
    end.
    unfold core. act_simpl. by rewrite Hp, Hb, Hmo, Hq.
  - unfold on_hint_click. act_unfold. act_simpl.
    by assert ((1 <=? module s) = false) as -> by lia.
Qed.

(** A run of the page resets the engine's fields, leaves them alone, or
    changes them as one [route] call does. *)
Lemma page_run_core c w e s :
  core (state (page_run c w e s)) = core init_state ∨
  core (state (page_run c w e s)) = core s ∨
  ∃ u s', core s' = core s ∧
          core (state (page_run c w e s)) = core (state (route u e s')).
Proof.
  unfold page_run. act_unfold. act_simpl. destruct w; act_simpl.
  - right; left. by rewrite core_seed_messages, core_configure_gemini.
  - left. by rewrite core_seed_messages, core_configure_gemini.
  - right; left.
    destruct (on_hint_click e _) as [v s1 c1] eqn:Hh. act_simpl.
    apply (f_equal (λ o, core (state o))) in Hh. cbn beta in Hh. act_simpl.
    rewrite <- Hh. by rewrite on_hint_click_core, core_seed_messages,
      core_configure_gemini.
  - unfold on_chat_input, append_message. act_unfold.
    destruct (negb (String.eqb user_input EmptyString)); act_simpl.
    + right; right.
      match goal with |- context [route user_input e ?s1] =>
        exists user_input, s1; destruct (route user_input e s1) as [v s2 c2] eqn:Hr
      end.
      act_simpl. split; [|done]. unfold core. act_simpl.
      fold (core (seed_messages (configure_gemini c s).1)).
      by rewrite core_seed_messages, core_configure_gemini.
    + right; left. by rewrite core_seed_messages, core_configure_gemini.
  - right; left.
    by rewrite core_send_goodies, core_seed_messages, core_configure_gemini.
Qed.

(** An invariant of the engine's fields that [route] keeps is kept by
    every run of the page, resets included. *)
Lemma browse_invariant (P : SessionState → Prop) :
  (∀ s s', core s = core s' → P s → P s') →
  P init_state →
  (∀ u e s, P s → P (state (route u e s))) →
  ∀ runs s, P s → P (browse s runs).
Proof.
  intros Hcore Hinit Hroute runs.
  induction runs as [|[[c e] w] rest IH]; intros s Hs; cbn; [done|].
  apply IH.
  destruct (page_run_core c w e s) as [Hr|[Hr|(u & s' & Hs' & Hr)]].
  - by apply (Hcore init_state).
  - by apply (Hcore s).
  - apply (Hcore (state (route u e s'))); [done|].
    apply Hroute. by apply (Hcore s).
Qed.

Lemma route_progress_band user_text e s :
  progress_band s → progress_band (state (route user_text e s)).
Proof. unfold progress_band. intros Hband. route_cases; lia. Qed.

(** X12: through every sequence of runs of the page (chat input, hint
    clicks, the e-mail form, resets), [progress] takes only the values of
    the current module: 0 at the welcome state, 0, 20 or 40 in module 1,
    50, 60 or 80 in module 2, and 85, 90, 95 or 100 in module 3. *)
Theorem progress_follows_module runs :
  progress_band (browse init_state runs).
Proof.
  apply browse_invariant.
  - unfold progress_band, core. intros s s' [= -> _ -> _]. done.
  - unfold progress_band. cbn. lia.
  - intros. by apply route_progress_band.
  - unfold progress_band. cbn. lia.
Qed.

(** X13: through every sequence of runs of the page, the quiz score stays
    between 0 and the number of modules left behind, hence at most 2, and
    [module] stays within 0..3. *)
Theorem quiz_score_bounded_by_module runs :
  let s := browse init_state runs in
  0 ≤ module s ≤ 3 ∧ 0 ≤ quiz_correct s ≤ Z.max 0 (module s - 1) ∧
  quiz_correct s ≤ 2.
Proof.
  assert (quiz_inv (browse init_state runs)) as Hinv.
  { apply browse_invariant.
    - unfold quiz_inv, core. intros s s' [= _ _ -> ->]. done.
    - unfold quiz_inv. cbn. lia.
    - intros. by apply route_quiz_inv.
    - unfold quiz_inv. cbn. lia. }
  unfold quiz_inv in Hinv. cbv zeta. lia.
Qed.

End EngineMore.

(** ** Badges *)

Lemma badges_upto_mono (m m' : Z) (l : list string) :
  m ≤ m' → l `sublist_of` badges_upto m → l `sublist_of` badges_upto m'.
Proof.
  intros Hm Hl. etrans; [exact Hl|]. unfold badges_upto.
  replace (take (Z.to_nat (Z.max 1 m)) ALL_BADGES)
    with (take (Z.to_nat (Z.max 1 m)) (take (Z.to_nat (Z.max 1 m')) ALL_BADGES)).
  - apply sublist_take.
  - rewrite take_take. f_equal. lia.
Qed.

Lemma badges_award (i : nat) (x : string) (m : Z) (l : list string) :
  ALL_BADGES !! i = Some x → Z.to_nat (Z.max 1 m) = S i →
  l `sublist_of` badges_upto m → negb (str_in x l) = true →
  (l ++ [x]) `sublist_of` badges_upto m.
Proof.
  intros Hx Hm Hl Hfresh. unfold badges_upto in *. rewrite Hm in *.
  rewrite (take_S_r _ _ _ Hx) in *.
  apply sublist_app_r in Hl as (k1 & k2 & -> & Hk1 & Hk2).
  assert (k2 = []) as ->.
  { apply sublist_cons_r in Hk2 as [Hk2|(k' & -> & Hk')].
    - by apply sublist_nil_r in Hk2.
    - exfalso. apply negb_true_iff, not_true_iff_false in Hfresh.
      apply Hfresh, str_in_spec. set_solver. }
  rewrite app_nil_r. by apply sublist_app.
Qed.

Section Badges.
Context `{ops : !StrOps}.

Lemma route_badges_upto user_text e s :
  0 ≤ module s ≤ 3 ∧ badges s `sublist_of` badges_upto (module s) →
  let s' := state (route user_text e s) in
  0 ≤ module s' ≤ 3 ∧ badges s' `sublist_of` badges_upto (module s').
Proof.
  intros [Hm Hb]. cbv zeta. route_cases.
  all: split; [lia|].
  all: try (eapply badges_upto_mono; [|exact Hb]; lia).
  all: first
    [ solve [eapply (badges_award 0);
             [reflexivity|lia|eapply badges_upto_mono; [|exact Hb]; lia|done]]
    | solve [eapply (badges_award 1);
             [reflexivity|lia|eapply badges_upto_mono; [|exact Hb]; lia|done]]
    | solve [eapply (badges_award 2);
             [reflexivity|lia|eapply badges_upto_mono; [|exact Hb]; lia|done]] ].
Qed.

(** X14: through every sequence of runs of the page, the badge list is a
    subsequence of Concept Spark, Prompt Explorer, AI Tinkerer: only these
    three labels, each at most once, in the order of the modules. *)
Theorem badges_in_course_order runs :
  let s := browse init_state runs in
  badges s `sublist_of` ALL_BADGES ∧ (length (badges s) ≤ 3)%nat.
Proof.
  cbv zeta.
  assert (0 ≤ module (browse init_state runs) ≤ 3 ∧
          badges (browse init_state runs)
            `sublist_of` badges_upto (module (browse init_state runs))) as [_ Hb].
  { apply (browse_invariant
             (λ s, 0 ≤ module s ≤ 3 ∧ badges s `sublist_of` badges_upto (module s))).
    - unfold core. intros s s' [= _ -> -> _]. done.
    - split; [cbn; lia|]. apply sublist_nil_l.
    - intros u e s Hs. by apply route_badges_upto.
    - split; [cbn; lia|]. apply sublist_nil_l. }
  assert (badges (browse init_state runs) `sublist_of` ALL_BADGES) as Hall.
  { etrans; [exact Hb|]. apply sublist_take. }
  split; [done|]. by apply sublist_length in Hall.
Qed.

Ltac badge_facts :=
  repeat match goal with
  | H : negb (str_in _ _) = true |- _ =>
      apply negb_true_iff, not_true_iff_false in H; rewrite str_in_spec in H
  | H : negb (str_in _ _) = false |- _ =>
      apply negb_false_iff in H; rewrite str_in_spec in H
  end.

Lemma route_badges_earned user_text e s :
  badges_earned s → badges_earned (state (route user_text e s)).
Proof.
  unfold badges_earned. cbv zeta. intros (Hm & H1 & H2 & H3).
  route_cases; badge_facts.
  all: rewrite ?elem_of_app, ?list_elem_of_singleton.
  all: repeat match goal with
       | H : _ → _ |- _ => first [specialize (H ltac:(lia))|clear H]
       end.
  all: destruct_and?.
  all: split_and!; try lia; intros; try lia.
  all: split_and!; try lia; try done.
  all: try (intros [?|[=]]; done).
  all: try (split; intros; first [lia|tauto]).
  all: repeat match goal with
       | H : (progress ?x <? ?n) = false |- _ =>
           assert (n ≤ progress x) by lia; clear H
       end.
  all: first [tauto|intuition lia].
Qed.

(** X15: through every sequence of runs of the page, the badges follow
    the progress thresholds that gate the module intros: in module 2 the
    Prompt Explorer badge is held exactly when progress has reached 60; in
    module 3 it is always held, and AI Tinkerer exactly when progress has
    reached 90; so a learner at 100 holds both. *)
Theorem badges_track_progress runs :
  let s := browse init_state runs in
  let explorer := badge_label "Prompt Explorer" "🔎" in
  let tinkerer := badge_label "AI Tinkerer" "🛠️" in
  (module s = 2 → (60 ≤ progress s) ↔ (explorer ∈ badges s)) ∧
  (module s = 3 →
     (explorer ∈ badges s) ∧ ((90 ≤ progress s) ↔ (tinkerer ∈ badges s))) ∧
  (progress s = 100 → (explorer ∈ badges s) ∧ (tinkerer ∈ badges s)).
Proof.
  cbv zeta.
  assert (badges_earned (browse init_state runs)) as Hearned.
  { assert (badges_earned init_state) as Hinit.
    { unfold badges_earned. cbn. split_and!; try lia; try done.
      all: intros; split_and!; try lia; set_solver. }
    apply browse_invariant; [|done| |done].
    - unfold badges_earned, core. intros s s' [= -> -> -> _]. done.
    - intros. by apply route_badges_earned. }
  unfold badges_earned in Hearned. cbv zeta in Hearned.
  destruct Hearned as (Hm & H1 & H2 & H3).
  split_and!.
  - intros Hmod. by apply H2.
  - intros Hmod. destruct (H3 Hmod) as (_ & ? & ?). done.
  - intros Hp.
    assert (module (browse init_state runs) = 3) as Hmod.
    { destruct (decide (module (browse init_state runs) ≤ 1)) as [Hle|Hgt];
        [specialize (H1 Hle); lia|].
      destruct (decide (module (browse init_state runs) = 2)) as [H2'|?];
        [specialize (H2 H2'); lia|lia]. }
    destruct (H3 Hmod) as (_ & ? & Hiff). split; [done|]. apply Hiff. lia.
Qed.

End Badges.

(** ** The transcript, the e-mail form and the configuration *)

Section Transcript.
Context `{ops : !StrOps}.

(** What [route] leaves alone with the coaching toggle off, and what it
    adds to the transcript: at most one tutor aside. *)
Lemma route_untouched user_text e s :
  let o := route user_text e s in
  calls o = [] ∧ gemini_cache (state o) = gemini_cache s ∧
  next_hint_ok_ts (state o) = next_hint_ok_ts s ∧
  gemini_ready (state o) = gemini_ready s ∧
  email_captured (state o) = email_captured s ∧
  ∃ asides, messages (state o) = messages s ++ asides ∧
            (length asides ≤ 1)%nat ∧
            Forall (λ m, role m = "assistant") asides.
Proof.
  cbv zeta. chat_cases; split_and!; try done.
  all: first [ by exists []; rewrite app_nil_r; split_and!; [done|cbn; lia|]
             | by eexists [_]; split_and!; [done|cbn; lia|repeat constructor] ].
Qed.

Lemma on_chat_input_route user_input e s :
  user_input ≠ EmptyString →
  let s1 := set_messages
              (messages s ++ [{| role := "user"; content := user_input |}]) s in
  let o := route user_input e s1 in
  on_chat_input user_input e s =
    MkOut tt
      (set_messages
         (messages (state o) ++ [{| role := "assistant"; content := value o |}])
         (state o))
      (calls o).
Proof.
  intros Hne s1 o. subst o s1. unfold on_chat_input, append_message.
  apply String.eqb_neq in Hne. rewrite Hne. act_unfold. act_simpl.
  destruct (route user_input e _) as [v s2 c2]. act_simpl.
  by rewrite app_nil_r.
Qed.

(** X16: a submission of the chat box appends the user's message, then at
    most one tutor aside, then the reply of [route], in this order, and
    changes nothing else of the transcript; an empty submission changes
    nothing at all. *)
Theorem on_chat_input_transcript user_input e s :
  let o := on_chat_input user_input e s in
  (user_input = EmptyString → state o = s ∧ calls o = []) ∧
  (user_input ≠ EmptyString →
   ∃ asides reply,
     messages (state o) =
       messages s ++ [{| role := "user"; content := user_input |}] ++ asides ++
                     [{| role := "assistant"; content := reply |}] ∧
     reply = value (route user_input e
                      (set_messages
                         (messages s ++ [{| role := "user"; content := user_input |}])
                         s)) ∧
     (length asides ≤ 1)%nat ∧ Forall (λ m, role m = "assistant") asides).
Proof.
  intros o. split.
  - intros ->. subst o. unfold on_chat_input. act_unfold. by cbn.
  - intros Hne. pose proof (on_chat_input_route user_input e s Hne) as Ho.
    cbv zeta in Ho. fold o in Ho. rewrite Ho. act_simpl.
    match goal with |- context [route user_input e ?s1] =>
      destruct (route_untouched user_input e s1)
        as (_ & _ & _ & _ & _ & asides & Hmsg & Hlen & Hroles)
    end.
    exists asides. eexists. split_and!; [|done..].
    rewrite Hmsg. act_simpl. by rewrite <- !app_assoc.
Qed.

Lemma gemini_reply_frame_form prompt temp key e s :
  email_captured (state (gemini_reply prompt temp key e s)) = email_captured s.
Proof. unfold gemini_reply. act_cases; done. Qed.

Lemma seed_messages_head s :
  messages s = [] ∨ head (messages s) = Some WELCOME →
  head (messages (seed_messages s)) = Some WELCOME.
Proof.
  unfold seed_messages. intros [Hs|Hs].
  - by rewrite Hs.
  - destruct (messages s) eqn:E; [done|]. by rewrite E.
Qed.

Lemma messages_configure_gemini c s :
  messages (configure_gemini c s).1 = messages s.
Proof. unfold configure_gemini. by repeat case_match. Qed.

(** How a run of the page extends the transcript. *)
Lemma page_run_messages c w e s :
  let s' := state (page_run c w e s) in
  match w with
  | ResetDemo => messages s' = [WELCOME]
  | _ => messages (seed_messages s) `prefix_of` messages s'
  end.
Proof.
  cbv zeta. unfold page_run. act_unfold. act_simpl.
  assert (∀ s0, messages (seed_messages (configure_gemini c s0).1) =
                messages (seed_messages s0)) as Hseed.
  { intros s0. unfold seed_messages. rewrite messages_configure_gemini.
    destruct (messages s0) eqn:E; [done|]. by rewrite messages_configure_gemini. }
  destruct w; act_simpl.
  - by rewrite Hseed.
  - by rewrite Hseed.
  - destruct (on_hint_click e _) as [v s1 c1] eqn:Hh. act_simpl.
    apply (f_equal (λ o, messages (state o))) in Hh. cbn beta in Hh. act_simpl.
    rewrite <- Hh, <- Hseed.
    match goal with |- context [on_hint_click e ?s0] =>
      destruct (decide (1 ≤ module s0)) as [Hm|Hm];
        [pose proof (on_hint_click_shown e s0 Hm) as Ho; cbv zeta in Ho;
         rewrite Ho; act_simpl; by apply prefix_app_r
        |unfold on_hint_click; act_unfold; act_simpl;
         by assert ((1 <=? module s0) = false) as -> by lia]
    end.
  - rewrite <- Hseed.
    destruct (decide (user_input = EmptyString)) as [->|Hne]; [done|].
    match goal with |- context [on_chat_input user_input e ?s0] =>
      pose proof (on_chat_input_route user_input e s0 Hne) as Ho;
      cbv zeta in Ho; rewrite Ho; act_simpl;
      match goal with |- context [route user_input e ?s1] =>
        destruct (route_untouched user_input e s1)
          as (_ & _ & _ & _ & _ & asides & -> & _)
      end
    end.
    act_simpl. rewrite <- !app_assoc. by apply prefix_app_r.
  - rewrite <- Hseed.
    unfold send_goodies. by case_match.
Qed.

(** X17: the transcript is append-only: a run of the page other than a
    reset keeps every message already shown, in place, and a reset leaves
    the welcome message alone. *)
Theorem transcript_append_only c w e s :
  let s' := state (page_run c w e s) in
  (w ≠ ResetDemo → messages (seed_messages s) `prefix_of` messages s') ∧
  (w = ResetDemo → messages s' = [WELCOME]).
Proof.
  cbv zeta. pose proof (page_run_messages c w e s) as Hm. cbv zeta in Hm.
  split; intros Hw; by destruct w.
Qed.

Lemma page_run_head c w e s :
  messages s = [] ∨ head (messages s) = Some WELCOME →
  head (messages (state (page_run c w e s))) = Some WELCOME.
Proof.
  intros Hs. pose proof (page_run_messages c w e s) as Hm. cbv zeta in Hm.
  apply seed_messages_head in Hs.
  destruct w; try by rewrite Hm.
  all: destruct Hm as [k ->]; by destruct (messages (seed_messages s)).
Qed.

(** X18: once the page has run, the transcript always starts with the
    welcome message, whatever the learner does afterwards. *)
Theorem transcript_starts_with_welcome run runs :
  head (messages (browse init_state (run :: runs))) = Some WELCOME.
Proof.
  destruct run as [[c e] w]. cbn [browse].
  assert (∀ runs s, head (messages s) = Some WELCOME →
                    head (messages (browse s runs)) = Some WELCOME) as Hkeep.
  { clear. intros runs. induction runs as [|[[c e] w] rest IH]; intros s Hs;
      cbn [browse]; [done|].
    apply IH, page_run_head. by right. }
  apply Hkeep, page_run_head. by left.
Qed.

End Transcript.

Section Forms.
Context `{ops : !StrOps}.

Lemma on_hint_click_flags e s :
  email_captured (state (on_hint_click e s)) = email_captured s ∧
  gemini_ready (state (on_hint_click e s)) = gemini_ready s.
Proof.
  destruct (decide (1 ≤ module s)) as [Hm|Hm].
  - pose proof (on_hint_click_shown e s Hm) as Ho. cbv zeta in Ho. rewrite Ho.
    act_simpl. rewrite gemini_reply_frame_form.
    match goal with |- context [gemini_reply ?p ?t ?k e s] =>
      by pose proof (gemini_reply_frame p t k e s _ eq_refl)
        as (_ & _ & _ & _ & -> & _)
    end.
  - unfold on_hint_click. act_unfold. act_simpl.
    by assert ((1 <=? module s) = false) as -> by lia.
Qed.

Lemma on_chat_input_flags user_input e s :
  email_captured (state (on_chat_input user_input e s)) = email_captured s ∧
  gemini_ready (state (on_chat_input user_input e s)) = gemini_ready s.
Proof.
  destruct (decide (user_input = EmptyString)) as [->|Hne]; [done|].
  pose proof (on_chat_input_route user_input e s Hne) as Ho. cbv zeta in Ho.
  rewrite Ho. act_simpl.
  match goal with |- context [route user_input e ?s1] =>
    by destruct (route_untouched user_input e s1) as (_ & _ & _ & -> & -> & _)
  end.
Qed.

Lemma flags_seed_messages s :
  email_captured (seed_messages s) = email_captured s ∧
  gemini_ready (seed_messages s) = gemini_ready s.
Proof. unfold seed_messages. by destruct (messages s). Qed.

Lemma ready_seed_messages s : gemini_ready (seed_messages s) = gemini_ready s.
Proof. apply flags_seed_messages. Qed.

Lemma email_seed_messages s : email_captured (seed_messages s) = email_captured s.
Proof. apply flags_seed_messages. Qed.

Lemma email_configure_gemini c s :
  email_captured (configure_gemini c s).1 = email_captured s.
Proof. unfold configure_gemini. by repeat case_match. Qed.

Lemma contains_at (email : string) :
  negb (String.eqb email EmptyString) && contains "@" email = contains "@" email.
Proof. by destruct email. Qed.

(** X19: the e-mail flag.  Submitting the form sets [email_captured]
    exactly when the address contains an "@" (an empty address never
    does); no other run sets it, and only "Reset demo" clears it. *)
Theorem email_captured_by_form c w e s :
  let s' := state (page_run c w e s) in
  match w with
  | SendGoodies email =>
      email_captured s' = email_captured s || contains "@" email
  | ResetDemo => email_captured s' = false
  | _ => email_captured s' = email_captured s
  end.
Proof.
  cbv zeta. unfold page_run. act_unfold. act_simpl. destruct w; act_simpl.
  - by rewrite email_seed_messages, email_configure_gemini.
  - by rewrite email_seed_messages, email_configure_gemini.
  - destruct (on_hint_click e _) as [v s1 c1] eqn:Hh. act_simpl.
    apply (f_equal (λ o, email_captured (state o))) in Hh. cbn beta in Hh.
    act_simpl. rewrite <- Hh, (proj1 (on_hint_click_flags _ _)).
    by rewrite email_seed_messages, email_configure_gemini.
  - destruct (on_chat_input user_input e _) as [v s1 c1] eqn:Hh. act_simpl.
    apply (f_equal (λ o, email_captured (state o))) in Hh. cbn beta in Hh.
    act_simpl. rewrite <- Hh, (proj1 (on_chat_input_flags _ _ _)).
    by rewrite email_seed_messages, email_configure_gemini.
  - unfold send_goodies. rewrite contains_at.
    destruct (contains "@" email); act_simpl.
    + by rewrite orb_true_r.
    + rewrite orb_false_r.
      by rewrite email_seed_messages, email_configure_gemini.
Qed.

Lemma ready_configure_twice c s s0 :
  gemini_ready (configure_gemini c s0).1 = gemini_ready (configure_gemini c s).1.
Proof. unfold configure_gemini. by repeat case_match. Qed.

Lemma page_run_ready c w e s :
  gemini_ready (state (page_run c w e s)) = gemini_ready (configure_gemini c s).1.
Proof.
  unfold page_run. act_unfold. act_simpl. destruct w; act_simpl.
  - by rewrite ready_seed_messages.
  - rewrite ready_seed_messages. apply ready_configure_twice.
  - destruct (on_hint_click e _) as [v s1 c1] eqn:Hh. act_simpl.
    apply (f_equal (λ o, gemini_ready (state o))) in Hh. cbn beta in Hh.
    act_simpl. rewrite <- Hh, (proj2 (on_hint_click_flags _ _)).
    by rewrite ready_seed_messages.
  - destruct (on_chat_input user_input e _) as [v s1 c1] eqn:Hh. act_simpl.
    apply (f_equal (λ o, gemini_ready (state o))) in Hh. cbn beta in Hh.
    act_simpl. rewrite <- Hh, (proj2 (on_chat_input_flags _ _ _)).
    by rewrite ready_seed_messages.
  - unfold send_goodies.
    case_match; cbn [set_email_captured gemini_ready];
      by rewrite ready_seed_messages.
Qed.

(** X20: after every run of the page, whatever widget fired and whatever
    the flag was before, [gemini_ready] is true exactly when a non-empty
    API key was found and configuring the client did not raise. *)
Theorem gemini_ready_follows_configuration c w e s :
  gemini_ready (state (page_run c w e s)) = true ↔
  (∃ key, api_key c = Some key ∧ key ≠ EmptyString) ∧ configure_raises c = None.
Proof.
  rewrite page_run_ready. unfold configure_gemini.
  destruct (api_key c) as [key|]; cbn [default from_option id].
  - destruct (String.eqb key EmptyString) eqn:Hk; cbn [negb].
    + apply String.eqb_eq in Hk. cbn. split; [done|].
      intros [(k & [= <-] & Hne) _]. done.
    + apply String.eqb_neq in Hk.
      destruct (configure_raises c); cbn; split; try done;
        [by intros [_ ?]|eauto].
  - cbn. split; [done|]. by intros [(k & ? & _) _].
Qed.

(** X21: module 3 is terminal.  A [route] call made at module 3 leaves
    [module] and the quiz score as they are, and once progress has reached
    100 it changes neither progress nor the badges. *)
Theorem module_3_is_terminal user_text e s :
  module s = 3 →
  let s' := state (route user_text e s) in
  module s' = 3 ∧ quiz_correct s' = quiz_correct s ∧
  (100 ≤ progress s → progress s' = progress s ∧ badges s' = badges s).
Proof.
  intros Hm. cbv zeta. route_cases; split_and!; try lia; try done.
  all: intros; split; try lia; try done.
Qed.

(** X22: a [route] call only ever appends to the badge list and adds at
    most 1 to the quiz score, never less than 0. *)
Theorem route_only_adds user_text e s :
  let s' := state (route user_text e s) in
  badges s `prefix_of` badges s' ∧
  quiz_correct s ≤ quiz_correct s' ≤ quiz_correct s + 1.
Proof.
  cbv zeta. route_cases; split; try lia; try done.
  all: by apply prefix_app_r.
Qed.

End Forms.

(** ** Instances of the conditional properties *)

Lemma gemini_reply_cache_frame_witness :
  let s1 := state (gemini_reply (ops := ascii_ops) "First prompt." (7 # 10)%Q
                     (Some "hint_m1") (answering_at 100 "A hint.")
                     configured_session) in
  let o2 := gemini_reply (ops := ascii_ops) "Second prompt." (7 # 10)%Q
              (Some "hint_m2") (answering_at 200 "Another hint.") s1 in
  cache_entries (state o2) !! "hint_m1" = Some "A hint." ∧
  cache_entries (state o2) !! "hint_m2" = Some "Another hint.".
Proof.
  cbv zeta. split; [|by vm_compute].
  rewrite (gemini_reply_cache_frame (ops := ascii_ops));
    [by vm_compute|right; eexists; by vm_compute].
Defined.

Lemma gemini_reply_paces_calls_witness :
  let o1 := gemini_reply (ops := ascii_ops) "First prompt." (7 # 10)%Q
              (Some "hint_m1") (answering_at 100 "A hint.") configured_session in
  let o2 := gemini_reply (ops := ascii_ops) "Second prompt." (7 # 10)%Q
              (Some "hint_m2") (answering_at 112 "Another hint.") (state o1) in
  length (calls o1) = 1%nat ∧ calls o2 = [] ∧
  value o2 = "(Cooling down 18s to respect free-tier limits…)".
Proof.
  destruct (gemini_reply_paces_calls (ops := ascii_ops)
              "First prompt." (7 # 10)%Q (Some "hint_m1")
              (answering_at 100 "A hint.")
              "Second prompt." (7 # 10)%Q (Some "hint_m2")
              (answering_at 112 "Another hint.") configured_session)
    as (Hc1 & Hc2 & Hv); [by vm_compute..|].
  split_and!; [by rewrite Hc1|exact Hc2|exact Hv].
Defined.

Lemma gemini_reply_nonempty_witness :
  value (gemini_reply (ops := ascii_ops) "A prompt." (7 # 10)%Q None
           (answering_at 100 "   ") configured_session) ≠ EmptyString.
Proof.
  apply (gemini_reply_nonempty (ops := ascii_ops) "A prompt." (7 # 10)%Q None
           (answering_at 100 "   ") configured_session).
  intros k v Hk. by vm_compute in Hk.
Defined.

Lemma gemini_reply_sentinel_mark_witness :
  startswith
    (value (gemini_reply (ops := ascii_ops) "A prompt." (7 # 10)%Q None
              (offline_at 100) configured_session)) "(" = true.
Proof.
  destruct (gemini_reply_sentinel_mark (ops := ascii_ops) "A prompt." (7 # 10)%Q
              None (offline_at 100) configured_session eq_refl)
    as [Hmark|(text & Hr & _)]; [exact Hmark|discriminate Hr].
Defined.

Lemma on_hint_click_unconfigured_witness :
  let s := set_module 2 init_state in
  let o := on_hint_click (ops := ascii_ops) (offline_at 0) s in
  calls o = [] ∧
  messages (state o) =
    [{| role := "assistant";
        content := "**Hint:** Add audience, tone, and output format. (Hint unavailable: Gemini key not configured.)" |}].
Proof.
  exact (on_hint_click_unconfigured (ops := ascii_ops) (offline_at 0)
           (set_module 2 init_state) "Add audience, tone, and output format."
           ltac:(by vm_compute) eq_refl eq_refl eq_refl).
Defined.

Lemma on_hint_click_replay_witness :
  let s := set_module 1 configured_session in
  let o1 := on_hint_click (ops := ascii_ops) (offline_at 100) s in
  let o2 := on_hint_click (ops := ascii_ops)
              (answering_at 500 "Think of autocomplete.") (state o1) in
  length (calls o1) = 1%nat ∧ calls o2 = [] ∧
  ∃ shown, messages (state o1) = [shown] ∧ messages (state o2) = [shown; shown].
Proof.
  apply (on_hint_click_replay (ops := ascii_ops) (offline_at 100)
           (answering_at 500 "Think of autocomplete.")
           (set_module 1 configured_session)); by vm_compute.
Defined.

Lemma reset_demo_lifts_cooldown_witness :
  let o := gemini_reply (ops := ascii_ops) "A prompt." (7 # 10)%Q
             (Some "hint_m1") (answering_at 12 "A hint.")
             (reset_demo cooling_session) in
  length (calls o) = 1%nat ∧
  cache_entries (state o) !! "hint_m1" = Some "A hint.".
Proof.
  destruct (reset_demo_lifts_cooldown (ops := ascii_ops) "A prompt." (7 # 10)%Q
              (Some "hint_m1") (answering_at 12 "A hint.") cooling_session)
    as (Hc & Hs); [by vm_compute..|].
  split; [by rewrite Hc|exact Hs].
Defined.

Lemma module_3_is_terminal_witness :
  let s := set_progress 100 (set_module 3 init_state) in
  let s' := state (route (ops := ascii_ops) "2" (offline_at 0) s) in
  module s' = 3 ∧ progress s' = 100 ∧ badges s' = [].
Proof.
  destruct (module_3_is_terminal (ops := ascii_ops) "2" (offline_at 0)
              (set_progress 100 (set_module 3 init_state)) eq_refl)
    as (Hm & _ & Hdone).
  destruct Hdone as (Hp & Hb); [by vm_compute|].
  split_and!; [exact Hm|exact Hp|exact Hb].
Defined.
